(** * aicgen-site: a verification development for the landing page

    The repository is a React front end.  Each component is embedded as a
    pair (state, view) in the style of a model/update/view program:

    - [useState] cells become record fields,
    - event handlers and timer callbacks become constructors of an action
      type, interpreted by an update function (a handler that throws
      yields no new state),
    - the JSX returned by a component becomes a value of [Dom.node],
    - [setTimeout]/[setInterval]/[clearTimeout] become operations on an
      explicit timer pool ([Timers.pool]) that is threaded through the
      component state; the browser's event loop becomes a step function that
      fires the pending timer with the earliest deadline.

    Fixed styling (the [className] literals, the geometry and colours of
    the logo's shapes) is left out of the trees: it carries no behaviour.
    Times are in milliseconds. *)

From Stdlib Require Import String Ascii NArith Lia.
From stdpp Require Import base list sorting.

Local Open Scope string_scope.
Local Open Scope list_scope.
Local Open Scope nat_scope.

(** ** src/types.ts *)

Module Types.

Inductive InstallPlatform : Type := npm | windows | mac | linux.

(** [a === b] on platform identifiers. *)
Definition same_platform (a b : InstallPlatform) : bool :=
  match a, b with
  | npm, npm | windows, windows | mac, mac | linux, linux => true
  | _, _ => false
  end.

End Types.

(** ** Rendered output

    What a component returns: a tree of elements with their attributes and
    click handlers.  A click handler is recorded as the state change it
    requests, with the values its closure captured when the tree was
    rendered. *)

Module Dom.

Import Types.

Inductive action : Type :=
| ScrollToTop                            (* window.scrollTo(0,0) *)
| SetIsOpen (b : bool)                   (* Navbar: setIsOpen(b) *)
| SetActiveTab (p : InstallPlatform)     (* Installation: setActiveTab(p) *)
| HandleCopy (text : string).            (* Installation: handleCopy(text) *)

Inductive attr : Type :=
| Attr (name value : string)
| OnClick (a : action).

Inductive node : Type :=
| Elem (tag : string) (attrs : list attr) (children : list node)
| Text (s : string).

Fixpoint attribute (name : string) (attrs : list attr) : option string :=
  match attrs with
  | [] => None
  | Attr n v :: rest => if String.eqb n name then Some v else attribute name rest
  | OnClick _ :: rest => attribute name rest
  end.

Fixpoint handler_of (attrs : list attr) : option action :=
  match attrs with
  | [] => None
  | OnClick a :: _ => Some a
  | Attr _ _ :: rest => handler_of rest
  end.

Definition onClick (n : node) : option action :=
  match n with
  | Elem _ attrs _ => handler_of attrs
  | Text _ => None
  end.

Definition children (n : node) : list node :=
  match n with
  | Elem _ _ kids => kids
  | Text _ => []
  end.

(** Every element with the given tag, in document order. *)
Fixpoint elements (t : string) (n : node) : list node :=
  match n with
  | Elem tag _ kids =>
      (if String.eqb tag t then [n] else []) ++ concat (map (elements t) kids)
  | Text _ => []
  end.

Definition href (n : node) : option string :=
  match n with
  | Elem _ attrs _ => attribute "href" attrs
  | Text _ => None
  end.

(** The targets of the page's anchors. *)
Definition hyperlinks (n : node) : list string :=
  omap href (elements "a" n).

(** [s.startsWith(p)] and [s.includes(p)]. *)
Fixpoint startsWith (s p : string) {struct p} : bool :=
  match p, s with
  | EmptyString, _ => true
  | String a p', String b s' => Ascii.eqb a b && startsWith s' p'
  | String _ _, EmptyString => false
  end.

Fixpoint includes (s p : string) : bool :=
  startsWith s p
  || match s with
     | EmptyString => false
     | String _ s' => includes s' p
     end.

(** An absolute web address, as opposed to an in-page fragment. *)
Definition absolute (url : string) : bool :=
  startsWith url "http://" || startsWith url "https://".

End Dom.

(** ** components/Logo.tsx *)

Module Logo.

Import Dom.

Definition gradient (id : string) : node :=
  Elem "linearGradient" [Attr "id" id; Attr "gradientUnits" "userSpaceOnUse"]
    [ Elem "stop" [Attr "offset" "0%"; Attr "stopColor" "#06b6d4"] [];
      Elem "stop" [Attr "offset" "100%"; Attr "stopColor" "#8b5cf6"] [] ].

Definition view : node :=
  Elem "svg"
    [ Attr "viewBox" "0 0 100 60"; Attr "fill" "none";
      Attr "xmlns" "http://www.w3.org/2000/svg"; Attr "aria-label" "aicgen logo" ]
    [ Elem "circle" [] []; Elem "circle" [] []; Elem "circle" [] [];
      Elem "path" [Attr "stroke" "url(#lineGradient1)"] [];
      Elem "path" [Attr "stroke" "url(#lineGradient2)"] [];
      Elem "path" [Attr "stroke" "url(#lineGradient3)"] [];
      Elem "rect" [] [];
      Elem "line" [] []; Elem "line" [] []; Elem "line" [] [];
      Elem "path" [] [];
      Elem "circle" [] [];
      Elem "defs" []
        [ gradient "lineGradient1"; gradient "lineGradient2"; gradient "lineGradient3" ] ].

End Logo.

(** ** The browser's timer API

    [setTimeout] and [setInterval] draw identifiers from one counter and
    register a task with a deadline; [clearTimeout] and [clearInterval] are
    the same operation on that shared identifier space.  The event loop runs
    the task whose deadline is earliest (among equal deadlines, the one
    registered first), never before its deadline and possibly [late]
    milliseconds after it.  A repeating task is registered again, under the
    same identifier, once its handler has returned, with a deadline counted
    from the moment the handler ran (the timer initialisation steps of the
    HTML standard). *)

Module Timers.

Section Pool.

Context {H : Type}.

Record timer : Type := Timer
  { tid : nat; due : N; period : option N; handler : H }.

Record pool : Type := Pool
  { now : N; next_id : nat; pending : list timer }.

Definition register (h : H) (delay : N) (every : option N) (p : pool)
  : nat * pool :=
  (next_id p,
   Pool (now p) (S (next_id p))
        (pending p ++ [Timer (next_id p) (now p + delay)%N every h])).

Definition setTimeout (h : H) (delay : N) (p : pool) : nat * pool :=
  register h delay None p.

Definition setInterval (h : H) (every : N) (p : pool) : nat * pool :=
  register h every (Some every) p.

Definition unlist (id : nat) (l : list timer) : list timer :=
  filter (λ t, tid t ≠ id) l.

Definition clearTimeout (id : nat) (p : pool) : pool :=
  Pool (now p) (next_id p) (unlist id (pending p)).

Definition clearInterval (id : nat) (p : pool) : pool :=
  clearTimeout id p.

(** The task the event loop runs next. *)
Fixpoint earliest (l : list timer) : option timer :=
  match l with
  | [] => None
  | t :: l' =>
      match earliest l' with
      | Some u => if (due u <? due t)%N then Some u else Some t
      | None => Some t
      end
  end.

(** The clock reaches the deadline of the next task (plus [late]); the
    task is still listed while its handler runs. *)
Definition fire (late : N) (p : pool) : option (timer * pool) :=
  match earliest (pending p) with
  | None => None
  | Some t =>
      Some (t, Pool (N.max (now p) (due t) + late)%N (next_id p) (pending p))
  end.

(** After the handler: a one-shot task leaves the list; a repeating one
    is listed again unless the handler cleared it. *)
Definition settle (t : timer) (p : pool) : pool :=
  let rest := unlist (tid t) (pending p) in
  match period t with
  | Some every =>
      if bool_decide (tid t ∈ map tid (pending p))
      then Pool (now p) (next_id p)
                (rest ++ [Timer (tid t) (now p + every)%N (Some every) (handler t)])
      else Pool (now p) (next_id p) rest
  | None => Pool (now p) (next_id p) rest
  end.

End Pool.

Arguments timer : clear implicits.
Arguments pool : clear implicits.

End Timers.

(** ** components/Terminal.tsx *)

Module Terminal.

Import Timers.

Record step : Type := Step
  { text : string; delay : N; color : option string }.

Definition steps : list step :=
  [ Step "> navigate to project..." 500%N None;
    Step "> aicgen init" 1500%N None;
    Step "✔  Analyzing project structure..." 2500%N (Some "text-blue-400");
    Step "? Select AI Assistant › Claude Code" 3500%N (Some "text-primary");
    Step "? Choose Architecture › Modular Monolith" 4500%N (Some "text-primary");
    Step "✔  Configuration generated successfully!" 5500%N (Some "text-success");
    Step "  + .claude/settings.json" 6000%N (Some "text-textGray");
    Step "  + .claude/guidelines/architecture.md" 6200%N (Some "text-textGray");
    Step "  + .claude/agents/checker.md" 6400%N (Some "text-textGray");
    Step "> Ready to code." 7000%N (Some "text-white") ].

Definition loop_period : N := 9000.

(** The two closures handed to the timer API. *)
Inductive callback : Type :=
| Reveal (line : string)      (* () => setLines(prev => [...prev, step.text]) *)
| RunAnimation.               (* runAnimation *)

(** [lines] is the component's state cell; [timeouts] is the array of the
    effect's closure, shared by every run of [runAnimation] and by the
    cleanup; [loop] is the interval's identifier. *)
Record state : Type := State
  { lines : list string;
    timeouts : list nat;
    loop : option nat;
    timers : pool callback }.

Definition setLines (f : list string → list string) (s : state) : state :=
  State (f (lines s)) (timeouts s) (loop s) (timers s).

(** One turn of [steps.forEach]: schedule the reveal, push its identifier. *)
Definition schedule (s : state) (st : step) : state :=
  let '(id, p) := setTimeout (Reveal (text st)) (delay st) (timers s) in
  State (lines s) (timeouts s ++ [id]) (loop s) p.

Definition runAnimation (s : state) : state :=
  fold_left schedule steps (setLines (λ _, []) s).

(** The effect body, run once when the component mounts. *)
Definition mount (p : pool callback) : state :=
  let s := runAnimation (State [] [] None p) in
  let '(id, p') := setInterval RunAnimation loop_period (timers s) in
  State (lines s) (timeouts s) (Some id) p'.

(** The function the effect returns. *)
Definition cleanup (s : state) : state :=
  let p := match loop s with
           | Some id => clearInterval id (timers s)
           | None => timers s
           end in
  State (lines s) (timeouts s) (loop s)
        (fold_left (λ q id, clearTimeout id q) (timeouts s) p).

Definition run (c : callback) (s : state) : state :=
  match c with
  | Reveal line => setLines (λ prev, prev ++ [line]) s
  | RunAnimation => runAnimation s
  end.

(** One turn of the event loop. *)
Definition tick (late : N) (s : state) : option state :=
  match fire late (timers s) with
  | None => None
  | Some (t, p) =>
      let s' := run (handler t) (State (lines s) (timeouts s) (loop s) p) in
      Some (State (lines s') (timeouts s') (loop s') (settle t (timers s')))
  end.

(** A fresh page: any clock value, any identifier counter, no task. *)
Definition fresh (t0 : N) (id0 : nat) : pool callback := Pool t0 id0 [].

(** States of the mounted component. *)
Inductive running : state → Prop :=
| running_mount t0 id0 : running (mount (fresh t0 id0))
| running_tick s late s' : running s → tick late s = Some s' → running s'.

(** States of the component over its whole life, teardown included. *)
Inductive reachable : state → Prop :=
| reachable_running s : running s → reachable s
| reachable_cleanup s : running s → reachable (cleanup s)
| reachable_tick s late s' : reachable s → tick late s = Some s' → reachable s'.

Definition texts : list string := map text steps.

(** The first [n] turns of the event loop, all on time. *)
Fixpoint play (n : nat) (s : state) : state :=
  match n with
  | 0 => s
  | S n' => match tick 0 s with Some s' => play n' s' | None => s end
  end.

(** [steps[idx]?.color || 'text-gray-300'] *)
Definition line_color (idx : nat) : string :=
  match steps !! idx with
  | Some st => default "text-gray-300" (color st)
  | None => "text-gray-300"
  end.

Definition view (s : state) : Dom.node :=
  Dom.Elem "div" []
    [ Dom.Elem "div" []
        [ Dom.Elem "div" [] []; Dom.Elem "div" [] []; Dom.Elem "div" [] [];
          Dom.Elem "div" [] [Dom.Text "bash — aicgen"] ];
      Dom.Elem "div" []
        (imap (λ idx line,
                 Dom.Elem "div"
                   [Dom.Attr "className" (String.append (line_color idx) " mb-1")]
                   [Dom.Text line])
              (lines s)
         ++ [Dom.Elem "div" [] []]) ].

End Terminal.


(** ** components/Navbar.tsx *)

Module Navbar.

Import Dom.

Record link : Type := Link { name : string; href : string }.

Definition navLinks : list link :=
  [ Link "Features" "#features";
    Link "How It Works" "#how-it-works";
    Link "Installation" "#installation" ].

(** The component's only state cell is [isOpen], initially [false]. *)
Definition initial : bool := false.

Definition menuButton (isOpen : bool) : node :=
  Elem "button" [OnClick (SetIsOpen (negb isOpen))]
    [ Elem "span" [] [Text "Open main menu"];
      if isOpen then Elem "X" [] [] else Elem "Menu" [] [] ].

Definition mobileLink (l : link) : node :=
  Elem "a" [Attr "href" (href l); OnClick (SetIsOpen false)] [Text (name l)].

Definition mobileMenu : node :=
  Elem "div" []
    [ Elem "div" []
        (map mobileLink navLinks
         ++ [ Elem "a"
                [ Attr "href" "https://github.com/lpsandaruwan/aicgen";
                  Attr "target" "_blank"; Attr "rel" "noopener noreferrer" ]
                [Text "GitHub Repo"] ]) ].

Definition view (isOpen : bool) : node :=
  Elem "nav" []
    ([ Elem "div" []
         [ Elem "div" []
             [ Elem "div" [OnClick ScrollToTop]
                 [ Logo.view; Elem "span" [] [Text "aicgen"] ];
               Elem "div" []
                 [ Elem "div" []
                     (map (λ l, Elem "a" [Attr "href" (href l)] [Text (name l)])
                          navLinks
                      ++ [ Elem "a"
                             [ Attr "href" "https://github.com/lpsandaruwan/aicgen";
                               Attr "target" "_blank";
                               Attr "rel" "noopener noreferrer";
                               Attr "aria-label" "GitHub Repository" ]
                             [Elem "Github" [] []] ]) ];
               Elem "div" [] [menuButton isOpen] ] ] ]
     ++ (if isOpen then [mobileMenu] else [])).

Definition update (a : action) (isOpen : bool) : bool :=
  match a with
  | SetIsOpen b => b
  | _ => isOpen
  end.

(** A click on an element of the rendered tree runs its handler, if any;
    the component is rendered again before the next click. *)
Definition click (n : node) (isOpen : bool) : bool :=
  match onClick n with
  | Some a => update a isOpen
  | None => isOpen
  end.

End Navbar.

(** ** components/Hero.tsx *)

Module Hero.

Import Dom.

Definition assistantLogo (label : string) : node :=
  Elem "span" [] [Elem "div" [] []; Text label].

Definition view (terminal : Terminal.state) : node :=
  Elem "section" []
    [ Elem "div" [] []; Elem "div" [] []; Elem "div" [] [];
      Elem "div" []
        [ Elem "div" []
            [ Elem "div" [] [Elem "span" [] []; Text "v1.1.0 is now available"];
              Elem "h1" []
                [Text "AI Config Generator"; Elem "span" [] [Text "for better coding"]];
              Elem "p" []
                [Text "Makes your project AI-ready in seconds with tailored instruction files for Claude Code, GitHub Copilot, and Gemini."];
              Elem "div" []
                [ Elem "a" [Attr "href" "#installation"]
                    [Text "Get Started "; Elem "ArrowRight" [] []];
                  Elem "a"
                    [ Attr "href" "https://github.com/lpsandaruwan/aicgen";
                      Attr "target" "_blank"; Attr "rel" "noopener noreferrer" ]
                    [Elem "Github" [] []; Text " View on GitHub"] ] ];
          Elem "div" [] [Elem "div" [] []; Terminal.view terminal];
          Elem "div" []
            [ Elem "p" [] [Text "Supported Assistants"];
              Elem "div" []
                [ assistantLogo "Claude"; assistantLogo "Copilot";
                  assistantLogo "Gemini"; assistantLogo "Codex" ] ] ] ].

End Hero.

(** ** The centralized site data configuration ([SITE_DATA]) *)

Module SiteData.

Record stats_t : Type := Stats
  { guidelines : nat; categories_count : nat;
    languages_count : nat; assistants_count : nat }.

(** [stats.guidelines], [stats.categories], [stats.languages],
    [stats.assistants]. *)
Definition stats : stats_t := Stats 91 12 9 5.

Definition languages : list string :=
  [ "TypeScript"; "JavaScript"; "Python"; "Go"; "Rust";
    "Java"; "C#"; "Ruby"; "Dart"; "Swift" ].

Definition assistants : list string :=
  [ "Claude Code"; "GitHub Copilot"; "Gemini"; "Codex"; "Antigravity" ].

Definition categories : list string :=
  [ "Language"; "Architecture"; "Testing"; "Security"; "Performance";
    "Database"; "API Design"; "Code Style"; "Error Handling"; "DevOps";
    "Best Practices"; "Design Patterns" ].

Record entry : Type := Entry { title : string; description : string }.

(** The [features] object: its keys in the order they are written. *)
Definition features : list (string * entry) :=
  [ ("multiAssistant",
     Entry "Multi-Assistant Support"
           "Supports Claude Code, GitHub Copilot, Gemini, Antigravity, and Codex out of the box.");
    ("guidelines",
     Entry "91 Guidelines"
           "Comprehensive coverage across 12 categories including Security, API Design, and Performance.");
    ("interactiveCLI",
     Entry "Interactive CLI Wizard"
           "Professional setup wizard with smart defaults, back navigation, and auto-detection.");
    ("hooksSubAgents",
     Entry "Hooks & Sub-Agents"
           "Auto-generates verification agents and hooks specifically for Claude Code workflows.");
    ("architectureAware",
     Entry "Architecture Aware"
           "Tailors guidelines for Microservices, Hexagonal, Modular Monoliths, and Event-Driven systems.");
    ("zeroDependencies",
     Entry "Zero Dependencies"
           "Self-contained binary with all guideline data embedded. Works completely offline.") ].

Definition github_url : string := "https://github.com/lpsandaruwan/aicgen".
Definition npm_url : string := "https://www.npmjs.com/package/@aicgen/aicgen".

End SiteData.

(** ** components/Features.tsx *)

Module Features.

Import Dom.

(** [Feature] of src/types.ts; the icon is a component, named here. *)
Record Feature : Type := MkFeature
  { title : string; description : string; icon : string }.

Definition features : list Feature :=
  [ MkFeature "Multi-Assistant Support"
      "Supports Claude Code, GitHub Copilot, Gemini, Antigravity, and Codex out of the box."
      "Cpu";
    MkFeature "75+ Guidelines"
      "Comprehensive coverage across 12 categories including Security, API Design, and Performance."
      "Shield";
    MkFeature "Interactive CLI Wizard"
      "Professional setup wizard with smart defaults, back navigation, and auto-detection."
      "Zap";
    MkFeature "Hooks & Sub-Agents"
      "Auto-generates verification agents and hooks specifically for Claude Code workflows."
      "Code";
    MkFeature "Architecture Aware"
      "Tailors guidelines for Microservices, Hexagonal, Modular Monoliths, and Event-Driven systems."
      "Layers";
    MkFeature "Zero Dependencies"
      "Self-contained binary with all guideline data embedded. Works completely offline."
      "Box" ].

Definition card (feature : Feature) : node :=
  Elem "div" []
    [ Elem "div" [] [];
      Elem "div" []
        [ Elem "div" [] [Elem (icon feature) [] []];
          Elem "h3" [] [Text (title feature)];
          Elem "p" [] [Text (description feature)] ] ].

(** The grid: [features.map((feature, index) => ...)]. *)
Definition grid : node := Elem "div" [] (map card features).

Definition view : node :=
  Elem "section" [Attr "id" "features"]
    [ Elem "div" []
        [ Elem "div" []
            [ Elem "h2" []
                [ Elem "span" [] [Text "Everything you need"]; Text " ";
                  Text "to make your project AI-ready" ];
              Elem "p" []
                [Text "Standardize your AI assistant's context with professional-grade configuration files."] ];
          grid ] ].

End Features.

(** ** components/HowItWorks.tsx *)

Module HowItWorks.

Import Dom.

Record step : Type := Step
  { id : nat; title : string; description : string;
    icon : string; command : string }.

Definition steps : list step :=
  [ Step 1 "Run Init"
      "Navigate to your project root and run the initialization command."
      "Terminal" "aicgen init";
    Step 2 "Configure"
      "Select your AI assistant and architecture pattern via the interactive wizard."
      "Settings" "Select Assistant › Claude";
    Step 3 "Generated"
      "Get a tailored set of guidelines, rules, and hook configurations instantly."
      "FileCheck" "✔ Config Generated" ].

Definition view : node :=
  Elem "section" [Attr "id" "how-it-works"]
    [ Elem "div" []
        [ Elem "div" []
            [ Elem "h2" [] [Text "How It Works"];
              Elem "p" [] [Text "Zero friction setup. From terminal to AI-ready in seconds."] ];
          Elem "div" []
            (Elem "div" [] []
             :: map (λ st,
                       Elem "div" []
                         [ Elem "div" [] [Elem (icon st) [] []];
                           Elem "div" [] [Text (command st)];
                           Elem "h3" [] [Text (title st)];
                           Elem "p" [] [Text (description st)] ])
                    steps) ] ].

End HowItWorks.

(** ** components/OutputPreview.tsx *)

Module OutputPreview.

Import Dom.

Definition points : list string :=
  [ "Language-specific best practices";
    "Architecture-aware folder structures";
    "Automated agent instructions";
    "Consistent coding standards" ].

Definition entry (icon label : string) : node :=
  Elem "div" [] [Elem icon [] []; Elem "span" [] [Text label]].

Definition view : node :=
  Elem "section" []
    [ Elem "div" [] [];
      Elem "div" []
        [ Elem "div" []
            [ Elem "div" []
                [ Elem "h2" []
                    [Text "Crystal Clear "; Elem "span" [] [Text "Configuration"]];
                  Elem "p" []
                    [Text "aicgen doesn't just create empty files. It generates a complete, structured, and opinionated configuration ecosystem tailored to your specific architecture and language."];
                  Elem "ul" []
                    (map (λ item,
                            Elem "li" [] [Elem "div" [] []; Elem "span" [] [Text item]])
                         points) ];
              Elem "div" []
                [ Elem "div" []
                    [ Elem "div" [] [Text "Claude Code"];
                      Elem "div" [] [Text "GitHub Copilot"];
                      Elem "div" [] [Text "Gemini"] ];
                  Elem "div" []
                    [ entry "FileText" "CLAUDE.md";
                      Elem "div" []
                        [ entry "Folder" ".claude/";
                          Elem "div" []
                            [ entry "FileJson" "settings.json";
                              entry "Folder" "guidelines/";
                              Elem "div" []
                                [ Elem "div" [] [Text "├── language.md"];
                                  Elem "div" [] [Text "├── architecture.md"];
                                  Elem "div" [] [Text "├── testing.md"];
                                  Elem "div" [] [Text "└── security.md"] ];
                              entry "Folder" "agents/";
                              Elem "div" []
                                [Elem "div" [] [Text "└── guideline-checker.md"]] ] ] ] ] ] ] ].

End OutputPreview.

(** ** components/Installation.tsx *)

Module Installation.

Import Types Dom Timers.

(** The closure handed to [setTimeout] by [handleCopy]. *)
Inductive callback : Type :=
| ResetCopied.                (* () => setCopied(false) *)

(** [activeTab] and [copied] are the component's state cells; [clipboard]
    is the text last handed to [navigator.clipboard.writeText]. *)
Record state : Type := State
  { activeTab : InstallPlatform;
    copied : bool;
    clipboard : option string;
    timers : pool callback }.

Definition initial (p : pool callback) : state := State npm false None p.

Definition setActiveTab (tab : InstallPlatform) (s : state) : state :=
  State tab (copied s) (clipboard s) (timers s).

Definition setCopied (b : bool) (s : state) : state :=
  State (activeTab s) b (clipboard s) (timers s).

(** [s.toLowerCase()] on the bytes of an ASCII string. *)
Definition lower (c : ascii) : ascii :=
  let n := nat_of_ascii c in
  if (65 <=? n) && (n <=? 90) then ascii_of_nat (n + 32) else c.

Fixpoint asciiLowerCase (s : string) : string :=
  match s with
  | EmptyString => EmptyString
  | String c s' => String (lower c) (asciiLowerCase s')
  end.

Section Detect.

(** [String.prototype.toLowerCase], as the engine provides it. *)
Variable toLowerCase : string → string.

(** The effect that runs when the component mounts; [userAgent] is
    [navigator.userAgent]. *)
Definition detectPlatform (userAgent : string) (s : state) : state :=
  let ua := toLowerCase userAgent in
  if includes ua "win" then setActiveTab windows s
  else if includes ua "mac" then setActiveTab mac s
  else if includes ua "linux" then setActiveTab linux s
  else setActiveTab npm s.

End Detect.

(** [clipboardApi] tells whether [navigator.clipboard] is defined; browsers
    leave it undefined outside a secure context.  The handler reads
    [navigator.clipboard.writeText] first and unguarded: where the object is
    undefined that is a [TypeError], here [None], and neither [setCopied]
    nor [setTimeout] runs. *)
Definition handleCopy (clipboardApi : bool) (text : string) (s : state)
  : option state :=
  if clipboardApi then
    let '(_, p) := setTimeout ResetCopied 2000 (timers s) in
    Some (State (activeTab s) true (Some text) p)
  else None.

Record tab : Type := Tab { id : InstallPlatform; label : string }.

Definition tabs : list tab :=
  [ Tab npm "npm (Rec.)";
    Tab windows "Windows";
    Tab mac "macOS";
    Tab linux "Linux" ].

(** The buttons of the two command blocks of the npm tab. *)
Definition installButton (copied : bool) : node :=
  Elem "button"
    [OnClick (HandleCopy "npm install -g @aicgen/aicgen"); Attr "aria-label" "Copy command"]
    [if copied then Elem "Check" [] [] else Elem "Copy" [] []].

Definition npxButton : node :=
  Elem "button"
    [OnClick (HandleCopy "npx @aicgen/aicgen init"); Attr "aria-label" "Copy command"]
    [Elem "Copy" [] []].

Definition download (label note : string) : node :=
  Elem "div" []
    [ Elem "a" [Attr "href" "https://github.com/lpsandaruwan/aicgen/releases/latest"]
        [Elem "Download" [] []; Text label];
      Elem "p" [] [Text note] ].

Definition renderContent (s : state) : node :=
  match activeTab s with
  | npm =>
      Elem "div" []
        [ Elem "div" []
            [ Elem "div" [] [Text "# Install globally"];
              Elem "code" [] [Text "npm install -g @aicgen/aicgen"];
              installButton (copied s) ];
          Elem "div" []
            [ Elem "div" [] [Text "# Or use via npx (no install)"];
              Elem "code" [] [Text "npx @aicgen/aicgen init"];
              npxButton ] ]
  | windows =>
      download "Download Windows Installer (.exe)"
               "Includes automatic PATH configuration."
  | mac =>
      download "Download macOS Package (.pkg)"
               "Standard macOS installer signed & notarized."
  | linux =>
      Elem "div" []
        [ Elem "div" []
            [ Elem "div" [] [Text "# Debian / Ubuntu"];
              Elem "div" [] [Elem "span" [] [Text "sudo dpkg -i aicgen_amd64.deb"]] ];
          Elem "div" []
            [ Elem "div" [] [Text "# RedHat / Fedora"];
              Elem "div" [] [Elem "span" [] [Text "sudo rpm -i aicgen_x86_64.rpm"]] ];
          Elem "div" []
            [ Elem "a" [Attr "href" "https://github.com/lpsandaruwan/aicgen/releases/latest"]
                [Text "View all Linux releases on GitHub"] ] ]
  end.

Definition view (s : state) : node :=
  Elem "section" [Attr "id" "installation"]
    [ Elem "div" []
        [ Elem "div" []
            [ Elem "h2" [] [Text "Install Anywhere"];
              Elem "p" [] [Text "Choose your preferred installation method."] ];
          Elem "div" []
            [ Elem "div" []
                (map (λ t, Elem "button" [OnClick (SetActiveTab (id t))] [Text (label t)])
                     tabs);
              Elem "div" [] [renderContent s] ];
          Elem "div" []
            [ Elem "p" [] [Text "Quick Start"];
              Elem "div" []
                [ Elem "div" []
                    [Elem "Terminal" [] []; Elem "span" [] [Text "aicgen init"]] ] ] ] ].

Definition update (clipboardApi : bool) (a : action) (s : state)
  : option state :=
  match a with
  | SetActiveTab p => Some (setActiveTab p s)
  | HandleCopy text => handleCopy clipboardApi text s
  | _ => Some s
  end.

(** The handler of a clicked element, run; [None] when it throws. *)
Definition dispatch (clipboardApi : bool) (n : node) (s : state)
  : option state :=
  match onClick n with
  | Some a => update clipboardApi a s
  | None => Some s
  end.

(** The component after a click: a handler that throws leaves the state
    cells as they were. *)
Definition click (clipboardApi : bool) (n : node) (s : state) : state :=
  default s (dispatch clipboardApi n s).

Definition run (c : callback) (s : state) : state :=
  match c with
  | ResetCopied => setCopied false s
  end.

(** One turn of the event loop. *)
Definition tick (late : N) (s : state) : option state :=
  match fire late (timers s) with
  | None => None
  | Some (t, p) =>
      let s' := run (handler t) (State (activeTab s) (copied s) (clipboard s) p) in
      Some (State (activeTab s') (copied s') (clipboard s') (settle t (timers s')))
  end.

End Installation.

(** ** components/Footer.tsx *)

Module Footer.

Import Dom.

(** [year] is the rendering of [new Date().getFullYear()]. *)
Definition view (year : string) : node :=
  Elem "footer" []
    [ Elem "div" []
        [ Elem "div" []
            [ Elem "div" []
                [ Elem "div" [] [Logo.view; Elem "span" [] [Text "aicgen"]];
                  Elem "p" []
                    [Text "Configuration generator for AI coding assistants. Make your project AI-ready in seconds."] ];
              Elem "div" []
                [ Elem "a"
                    [ Attr "href" "https://github.com/lpsandaruwan/aicgen";
                      Attr "aria-label" "GitHub" ]
                    [Elem "Github" [] []];
                  Elem "a"
                    [ Attr "href" "https://www.npmjs.com/package/@aicgen/aicgen";
                      Attr "aria-label" "NPM" ]
                    [Text "npm"] ] ];
          Elem "div" []
            [ Elem "p" [] [Text "© "; Text year; Text " Lahiru Sandaruwan. MIT License."];
              Elem "div" [] [Elem "span" [] [Text "v1.0.0"]] ] ] ].

End Footer.

(** ** App.tsx *)

Module App.

Import Dom.

(** The state cells of the components on the page, and the year the
    footer reads from the clock. *)
Record page : Type := Page
  { navbar : bool;
    terminal : Terminal.state;
    installation : Installation.state;
    year : string }.

Definition stat (value label : string) : node :=
  Elem "div" [] [Elem "div" [] [Text value]; Elem "div" [] [Text label]].

Definition view (pg : page) : node :=
  Elem "div" []
    [ Navbar.view (navbar pg);
      Elem "main" []
        [ Hero.view (terminal pg);
          Features.view;
          HowItWorks.view;
          OutputPreview.view;
          Installation.view (installation pg);
          Elem "section" []
            [ Elem "div" []
                [ stat "91" "Guidelines"; stat "12" "Categories";
                  stat "9" "Languages"; stat "5" "Assistants" ] ] ];
      Footer.view (year pg) ].

End App.

(** ** Auxiliary notions for the Terminal's timer-driven animation *)

Module TerminalSpec.

Import Timers Terminal.

(** The tasks one run of [runAnimation] registers at time [base], the
    first of them under identifier [id]. *)
Fixpoint reveals (id : nat) (base : N) (l : list step) : list (timer callback) :=
  match l with
  | [] => []
  | st :: l' =>
      Timer id (base + delay st)%N None (Reveal (text st)) :: reveals (S id) base l'
  end.

(** The interval task, armed at time [base]. *)
Definition interval (ivid : nat) (base : N) : timer callback :=
  Timer ivid (base + loop_period)%N (Some loop_period) RunAnimation.

(** State of the mounted component [k] reveals into the iteration that
    started at time [base]: the iteration's tasks hold the identifiers
    [id], [id + 1], ...; the interval holds [ivid]. *)
Definition shape (s : state) (base : N) (k id ivid : nat) : Prop :=
  lines s = take k texts
  ∧ loop s = Some ivid
  ∧ pending (timers s) = drop k (reveals id base steps) ++ [interval ivid base]
  ∧ (∀ i, id ≤ i < id + length steps → i ∈ timeouts s)
  ∧ (ivid < id ∨ id + length steps ≤ ivid)
  ∧ id + length steps ≤ next_id (timers s)
  ∧ ivid < next_id (timers s).

(** The deadline of the next task: the [k]-th reveal, or the interval once
    every line is shown. *)
Definition next_due (base : N) (k : nat) : N :=
  (base + default loop_period (delay <$> steps !! k))%N.

End TerminalSpec.

(** ** Auxiliary notions for strings and pages *)

Module PageSpec.

Import Types Dom.

(** [p] occurs in [s] as a contiguous substring. *)
Definition occurs (p s : string) : Prop :=
  ∃ a b, s = String.append a (String.append p b).

(** What a card of the Features grid shows, and what an entry of
    [SITE_DATA.features] says, as (title, description) pairs. *)
Definition shown (f : Features.Feature) : string * string :=
  (Features.title f, Features.description f).

Definition configured (e : string * SiteData.entry) : string * string :=
  (SiteData.title (snd e), SiteData.description (snd e)).

(** The three destinations outside the page. *)
Definition repository : string := "https://github.com/lpsandaruwan/aicgen".
Definition releases : string :=
  "https://github.com/lpsandaruwan/aicgen/releases/latest".
Definition registry : string := "https://www.npmjs.com/package/@aicgen/aicgen".

End PageSpec.

(** ** Auxiliary notions for the components' behaviour over time *)

Module ViewSpec.

Import Dom.

(** The rows of the terminal's body: the second child of the window. *)
Definition rows (s : Terminal.state) : list node :=
  match children (Terminal.view s) with
  | [_; body] => children body
  | _ => []
  end.

(** The row that shows a step in the step's own colour. *)
Definition row (st : Terminal.step) : node :=
  Elem "div"
    [Attr "className"
       (String.append (default "text-gray-300" (Terminal.color st)) " mb-1")]
    [Text (Terminal.text st)].

(** The blinking cursor that closes the body. *)
Definition cursor : node := Elem "div" [] [].

(** The [id] attributes of a tree, in document order. *)
Fixpoint ids (n : node) : list string :=
  match n with
  | Elem _ attrs kids =>
      match attribute "id" attrs with
      | Some i => [i]
      | None => []
      end ++ concat (map ids kids)
  | Text _ => []
  end.

(** The element name an in-page address refers to. *)
Definition fragment (url : string) : option string :=
  match url with
  | String "#" name => Some name
  | _ => None
  end.

(** The styling of the tab that is shown. *)
Definition active_class : string :=
  "text-primary border-b-2 border-primary bg-[#0f172a]".

Definition className (n : node) : option string :=
  match n with
  | Elem _ attrs _ => attribute "className" attrs
  | Text _ => None
  end.

End ViewSpec.

Module NavbarSpec.

(** [n] clicks on the menu button, the component rendered again after each. *)
Fixpoint clicks (n : nat) (isOpen : bool) : bool :=
  match n with
  | 0 => isOpen
  | S n' => clicks n' (Navbar.click (Navbar.menuButton isOpen) isOpen)
  end.

End NavbarSpec.

Module InstallationSpec.

Import Timers Installation.

(** States of the Installation component: first render, the mount effect
    on any user agent, clicks on the buttons it renders (with or without a
    clipboard), timer callbacks. *)
Inductive reachable : state → Prop :=
| reachable_initial t0 id0 : reachable (initial (Pool t0 id0 []))
| reachable_detect toLowerCase userAgent s :
    reachable s → reachable (detectPlatform toLowerCase userAgent s)
| reachable_click clipboardApi n s :
    reachable s → n ∈ Dom.elements "button" (view s) →
    reachable (click clipboardApi n s)
| reachable_tick late s s' :
    reachable s → tick late s = Some s' → reachable s'.

(** What holds between copies and resets: a set flag has a reset pending;
    every pending task is a one-shot due within 2000 ms; the clipboard holds
    nothing or one of the two commands. *)
Definition settled (s : state) : Prop :=
  (copied s = true → pending (timers s) ≠ [])
  ∧ Forall (λ t, period t = None ∧ (due t ≤ now (timers s) + 2000)%N)
           (pending (timers s))
  ∧ (copied s = true → clipboard s ≠ None)
  ∧ (clipboard s = None
     ∨ clipboard s = Some "npm install -g @aicgen/aicgen"
     ∨ clipboard s = Some "npx @aicgen/aicgen init").

End InstallationSpec.

(** ** components/Installation.tsx: the tab bar with its styling

    [Installation.view] leaves the buttons' [className] out.  Here the tab
    buttons are with the part of it that depends on the state. *)

Module InstallationTabs.

Import Types Dom Installation.

Definition tabButton (s : state) (t : tab) : node :=
  Elem "button"
    [ OnClick (SetActiveTab (id t));
      Attr "className"
        (if same_platform (activeTab s) (id t)
         then "text-primary border-b-2 border-primary bg-[#0f172a]"
         else "text-textGray hover:text-white") ]
    [Text (label t)].

Definition tabBar (s : state) : node :=
  Elem "div" [] (map (tabButton s) tabs).

(** A node without its [className]. *)
Definition unstyled (n : node) : node :=
  match n with
  | Elem tag attrs kids =>
      Elem tag
        (List.filter (λ a, match a with
                           | Attr name _ => negb (String.eqb name "className")
                           | OnClick _ => true
                           end) attrs)
        kids
  | Text _ => n
  end.

End InstallationTabs.

Module TerminalTrace.

Import Terminal.

(** The turns of the event loop, the [i]-th one late by the [i]-th entry. *)
Fixpoint play_late (lates : list N) (s : state) : state :=
  match lates with
  | [] => s
  | late :: rest =>
      match tick late s with
      | Some s' => play_late rest s'
      | None => s
      end
  end.

(** The iteration under way is the [m]-th since a mount at [t0]; it did not
    start before [t0 + (m - 1) * loop_period], nor after now. *)
Definition paced (t0 : N) (s : state) : Prop :=
  ∃ base k id ivid m,
    TerminalSpec.shape s base k id ivid
    ∧ length (timeouts s) = length steps * m
    ∧ 1 ≤ m
    ∧ (t0 + N.of_nat (m - 1) * loop_period ≤ base)%N
    ∧ (base ≤ Timers.now (timers s))%N.

End TerminalTrace.

(** * Proofs *)

(** ** Timer pool *)

Section TimerFacts.

Import Timers.
Context {H : Type}.
Implicit Types (t u : timer H) (l : list (timer H)).

Lemma earliest_elem_of l t : earliest l = Some t → t ∈ l.
Proof.
  revert t. induction l as [|a l IH]; intros t; simpl; [discriminate|].
  destruct (earliest l) as [u|] eqn:E.
  - destruct (due u <? due a)%N; intros [= <-].
    + right. by apply IH.
    + left.
  - intros [= <-]. left.
Qed.

Lemma earliest_head t l :
  Forall (λ u, (due t ≤ due u)%N) l → earliest (t :: l) = Some t.
Proof.
  intros Hall. simpl. destruct (earliest l) as [u|] eqn:E; [|done].
  apply earliest_elem_of in E.
  rewrite Forall_forall in Hall. specialize (Hall u E).
  destruct (N.ltb_spec (due u) (due t)); [lia|done].
Qed.

Lemma unlist_app id l1 l2 : unlist id (l1 ++ l2) = unlist id l1 ++ unlist id l2.
Proof. apply filter_app. Qed.

Lemma unlist_absent id l : id ∉ map tid l → unlist id l = l.
Proof.
  induction l as [|a l IH]; intros Hn; [done|].
  unfold unlist in *. rewrite filter_cons.
  destruct (decide (tid a ≠ id)) as [_|Heq].
  - f_equal. apply IH. intros Hin. apply Hn. simpl. by right.
  - exfalso. apply Hn. simpl. apply elem_of_cons. left.
    destruct (decide (id = tid a)) as [|Hne]; [done|].
    exfalso. apply Heq. congruence.
Qed.

Lemma unlist_here t : unlist (tid t) [t] = [].
Proof.
  unfold unlist. rewrite filter_cons, filter_nil.
  by destruct (decide (tid t ≠ tid t)).
Qed.

Lemma filter_none {A} (P : A → Prop) `{∀ x, Decision (P x)} (l : list A) :
  Forall (λ x, ¬ P x) l → filter P l = [].
Proof.
  induction 1 as [|x l Hx _ IH]; [done|].
  rewrite filter_cons. by destruct (decide (P x)).
Qed.

(** Clearing a list of identifiers leaves the tasks none of them names. *)
Lemma clear_all_pending (ids : list nat) (p : pool H) :
  pending (fold_left (λ q id, clearTimeout id q) ids p)
  = filter (λ t, tid t ∉ ids) (pending p).
Proof.
  revert p. induction ids as [|id ids IH]; intros p; simpl.
  - induction (pending p) as [|a l IHl]; [done|].
    rewrite filter_cons. destruct (decide (tid a ∉ [])) as [_|Hn].
    + by f_equal.
    + exfalso. apply Hn. apply not_elem_of_nil.
  - rewrite IH. simpl. unfold unlist. rewrite list_filter_filter.
    apply list_filter_iff. intros t. rewrite not_elem_of_cons. tauto.
Qed.

End TimerFacts.

(** ** Terminal: scheduling *)

Section TerminalFacts.

Import Timers Terminal TerminalSpec.

Lemma steps_sorted : StronglySorted N.lt (map delay steps).
Proof. repeat (constructor; [|repeat constructor; reflexivity]). constructor. Qed.

Lemma steps_before_loop : Forall (λ st, (delay st < loop_period)%N) steps.
Proof. repeat constructor; reflexivity. Qed.

#[local] Opaque steps loop_period.

Lemma reveals_tid id base l : map tid (reveals id base l) = seq id (length l).
Proof. revert id. induction l as [|st l IH]; intros id; simpl; [done|]. by rewrite IH. Qed.

Lemma reveals_drop k id base l :
  drop k (reveals id base l) = reveals (id + k) base (drop k l).
Proof.
  revert id l. induction k as [|k IH]; intros id l.
  - by rewrite !drop_0, Nat.add_0_r.
  - destruct l as [|st l]; simpl; [done|].
    rewrite IH. by replace (S id + k) with (id + S k) by lia.
Qed.

Lemma reveals_due id base l d :
  Forall (λ st, (d ≤ delay st)%N) l →
  Forall (λ t, (base + d ≤ due t)%N) (reveals id base l).
Proof.
  revert id. induction l as [|st l IH]; intros id Hall; simpl; [constructor|].
  inversion Hall; subst. constructor; [simpl; lia|auto].
Qed.

(** [steps.forEach] appends one task and one identifier per step. *)
Lemma forEach_schedule l s :
  fold_left schedule l s
  = State (lines s)
          (timeouts s ++ seq (next_id (timers s)) (length l))
          (loop s)
          (Pool (now (timers s)) (next_id (timers s) + length l)
                (pending (timers s)
                 ++ reveals (next_id (timers s)) (now (timers s)) l)).
Proof.
  revert s. induction l as [|st l IH]; intros [ln tos lp [nw nid pend]]; simpl.
  - by rewrite !app_nil_r, Nat.add_0_r.
  - rewrite IH. simpl. rewrite <- !app_assoc. simpl.
    by replace (nid + S (length l)) with (S (nid + length l)) by lia.
Qed.

Lemma runAnimation_eq s :
  runAnimation s
  = State []
          (timeouts s ++ seq (next_id (timers s)) (length steps))
          (loop s)
          (Pool (now (timers s)) (next_id (timers s) + length steps)
                (pending (timers s)
                 ++ reveals (next_id (timers s)) (now (timers s)) steps)).
Proof. unfold runAnimation. by rewrite forEach_schedule. Qed.

Lemma steps_suffix_later k st :
  steps !! k = Some st →
  Forall (λ st', (delay st ≤ delay st')%N) (drop (S k) steps).
Proof.
  intros Hk. pose proof steps_sorted as Hs.
  rewrite <- (take_drop k steps), (drop_S _ _ _ Hk), map_app in Hs.
  apply StronglySorted_app_1_r in Hs. simpl in Hs.
  apply StronglySorted_inv in Hs as [_ Hall].
  rewrite Forall_forall in Hall. apply Forall_forall. intros st' Hin.
  apply N.lt_le_incl, Hall, list_elem_of_In, in_map, list_elem_of_In, Hin.
Qed.

Lemma steps_lookup_before_loop k st :
  steps !! k = Some st → (delay st < loop_period)%N.
Proof.
  intros Hk. pose proof steps_before_loop as Hb.
  rewrite Forall_forall in Hb. apply Hb. eapply list_elem_of_lookup_2, Hk.
Qed.

Lemma unlist_cons_here (t : timer callback) l :
  tid t ∉ map tid l → unlist (tid t) (t :: l) = l.
Proof.
  intros Hn. change (t :: l) with ([t] ++ l).
  by rewrite unlist_app, unlist_here, unlist_absent.
Qed.

(** The mount effect leaves the component at the start of an iteration. *)
Lemma mount_shape t0 id0 :
  shape (mount (fresh t0 id0)) t0 0 id0 (id0 + length steps).
Proof.
  unfold mount. rewrite runAnimation_eq. simpl.
  repeat split; simpl; try done; try lia.
  intros i Hi. apply elem_of_seq. lia.
Qed.

(** A reveal: the earliest task is the next line's; it shows that line. *)
Lemma tick_reveal s base k id ivid st late :
  shape s base k id ivid → steps !! k = Some st →
  ∃ s', tick late s = Some s'
        ∧ shape s' base (S k) id ivid
        ∧ lines s' = lines s ++ [text st]
        ∧ now (timers s') = (N.max (now (timers s)) (base + delay st) + late)%N
        ∧ next_id (timers s') = next_id (timers s).
Proof.
  destruct s as [ln tos lp [nw nid pend]].
  intros (Hln & Hlp & Hpend & Htos & Hiv & Hid & Hivid) Hk. simpl in *.
  pose proof (lookup_lt_Some _ _ _ Hk) as Hlt.
  rewrite reveals_drop, (drop_S _ _ _ Hk) in Hpend. simpl in Hpend.
  set (t := Timer (id + k) (base + delay st)%N None (Reveal (text st))) in *.
  set (rest := reveals (S (id + k)) base (drop (S k) steps)) in *.
  assert (Hfirst : earliest pend = Some t).
  { subst pend. apply earliest_head. apply Forall_app. split.
    - apply reveals_due, steps_suffix_later, Hk.
    - repeat constructor. simpl.
      pose proof (steps_lookup_before_loop _ _ Hk). lia. }
  assert (Hrest : unlist (id + k) pend = rest ++ [interval ivid base]).
  { subst pend. change (id + k) with (tid t). apply unlist_cons_here.
    rewrite map_app. subst rest. rewrite reveals_tid. simpl.
    rewrite elem_of_app, elem_of_seq, list_elem_of_singleton. lia. }
  eexists. unfold tick, fire. simpl. rewrite Hfirst. simpl.
  split; [reflexivity|]. unfold settle. subst t. simpl. rewrite Hrest.
  repeat split; simpl; try done.
  - rewrite Hln. symmetry. apply take_S_r.
    unfold texts. by rewrite list_lookup_fmap, Hk.
  - subst rest. rewrite reveals_drop.
    by replace (id + S k) with (S (id + k)) by lia.
Qed.

(** A restart: once every line is shown the earliest task is the
    interval's; it empties the lines, schedules a whole iteration, and is
    armed again. *)
Lemma tick_restart s base k id ivid late :
  shape s base k id ivid → length steps ≤ k →
  ∃ s', tick late s = Some s'
        ∧ shape s' (N.max (now (timers s)) (base + loop_period) + late)%N
                0 (next_id (timers s)) ivid
        ∧ lines s' = []
        ∧ now (timers s') = (N.max (now (timers s)) (base + loop_period) + late)%N.
Proof.
  destruct s as [ln tos lp [nw nid pend]].
  intros (Hln & Hlp & Hpend & Htos & Hiv & Hid & Hivid) Hk. simpl in *.
  rewrite drop_ge in Hpend by (rewrite <- (length_map tid), reveals_tid, length_seq; done).
  simpl in Hpend. subst pend.
  eexists. unfold tick, fire. simpl. split; [reflexivity|].
  rewrite runAnimation_eq. simpl.
  set (base' := (N.max nw (base + loop_period) + late)%N).
  assert (Hsettle :
    settle (interval ivid base)
      (Pool base' (nid + length steps)
            (interval ivid base :: reveals nid base' steps))
    = Pool base' (nid + length steps)
           (reveals nid base' steps ++ [interval ivid base'])).
  { unfold settle. simpl.
    rewrite bool_decide_eq_true_2 by (apply elem_of_cons; by left).
    change ivid with (tid (interval ivid base)) at 1.
    rewrite unlist_cons_here; [done|].
    rewrite reveals_tid, elem_of_seq. simpl. lia. }
  simpl in Hsettle. rewrite Hsettle.
  repeat split; simpl; try done; try lia.
  - intros i Hi. apply elem_of_app. right. apply elem_of_seq. simpl. lia.
Qed.

Lemma tick_shape s base k id ivid late s' :
  shape s base k id ivid → tick late s = Some s' →
  ∃ base' k' id', shape s' base' k' id' ivid.
Proof.
  intros Hs Ht. destruct (steps !! k) as [st|] eqn:Hk.
  - destruct (tick_reveal _ _ _ _ _ _ late Hs Hk) as (s'' & Ht' & Hs' & _).
    rewrite Ht in Ht'. injection Ht' as ->. eauto.
  - apply lookup_ge_None in Hk.
    destruct (tick_restart _ _ _ _ _ late Hs Hk) as (s'' & Ht' & Hs' & _).
    rewrite Ht in Ht'. injection Ht' as ->. eauto.
Qed.

Lemma running_shape s :
  running s → ∃ base k id ivid, shape s base k id ivid.
Proof.
  induction 1 as [t0 id0|s late s' _ (base & k & id & ivid & Hs) Ht].
  - eauto using mount_shape.
  - destruct (tick_shape _ _ _ _ _ _ _ Hs Ht) as (base' & k' & id' & Hs'). eauto.
Qed.

(** The cleanup cancels the interval and every task of every iteration. *)
Lemma cleanup_shape s base k id ivid :
  shape s base k id ivid → pending (timers (cleanup s)) = [].
Proof.
  destruct s as [ln tos lp [nw nid pend]].
  intros (Hln & Hlp & Hpend & Htos & Hiv & Hid & Hivid). simpl in *.
  unfold cleanup. simpl. rewrite Hlp, clear_all_pending. simpl.
  subst pend. rewrite unlist_app.
  change (unlist ivid [interval ivid base]) with (unlist (tid (interval ivid base)) [interval ivid base]).
  rewrite unlist_here, app_nil_r.
  apply filter_none, Forall_forall. intros t Hin Hout. apply Hout, Htos.
  assert (Hall : t ∈ reveals id base steps).
  { apply list_elem_of_filter in Hin as [_ Hin].
    rewrite <- (take_drop k). apply elem_of_app. by right. }
  apply (list_elem_of_fmap_2 tid) in Hall.
  change (tid <$> reveals id base steps) with (map tid (reveals id base steps)) in Hall.
  rewrite reveals_tid in Hall. by apply elem_of_seq in Hall.
Qed.

Lemma cleanup_stuck s base k id ivid late :
  shape s base k id ivid → tick late (cleanup s) = None.
Proof.
  intros Hs. unfold tick, fire. by rewrite (cleanup_shape _ _ _ _ _ Hs).
Qed.

Lemma reachable_cases s :
  reachable s → running s ∨ ∃ s0, running s0 ∧ s = cleanup s0.
Proof.
  induction 1 as [s Hr|s Hr|s late s' _ [Hr|(s0 & Hr & ->)] Ht].
  - by left.
  - right. eauto.
  - left. eauto using running_tick.
  - destruct (running_shape _ Hr) as (base & k & id & ivid & Hs).
    by rewrite (cleanup_stuck _ _ _ _ _ late Hs) in Ht.
Qed.

(** A turn of the event loop either empties the lines or adds one. *)
Lemma tick_lines late s s' :
  tick late s = Some s' → lines s' = [] ∨ ∃ x, lines s' = lines s ++ [x].
Proof.
  unfold tick. destruct (fire late (timers s)) as [[t p]|]; [|discriminate].
  intros [= <-]. destruct (handler t) as [line|]; simpl.
  - right. eauto.
  - left. by rewrite runAnimation_eq.
Qed.

(** *** The event loop on time *)

Lemma play_running n s : running s → running (play n s).
Proof.
  revert s. induction n as [|n IH]; intros s Hr; simpl; [done|].
  destruct (tick 0 s) as [s'|] eqn:Ht; [|done].
  eauto using running_tick.
Qed.

Lemma play_stuck n s : tick 0 s = None → play n s = s.
Proof. intros Ht. destruct n; simpl; [done|]. by rewrite Ht. Qed.

Lemma play_add m n s : play (m + n) s = play n (play m s).
Proof.
  revert s. induction m as [|m IH]; intros s; simpl; [done|].
  destruct (tick 0 s) as [s'|] eqn:Ht; [apply IH|].
  by rewrite play_stuck.
Qed.

Lemma next_due_step base k st :
  steps !! k = Some st →
  next_due base k = (base + delay st)%N
  ∧ (next_due base k ≤ next_due base (S k))%N.
Proof.
  intros Hk. unfold next_due. rewrite Hk. simpl. split; [done|].
  destruct (steps !! S k) as [st'|] eqn:Hk'; simpl.
  - pose proof (steps_suffix_later _ _ Hk) as Hall.
    rewrite Forall_forall in Hall.
    assert (Hin : st' ∈ drop (S k) steps).
    { apply list_elem_of_lookup. exists 0. by rewrite lookup_drop, Nat.add_0_r. }
    specialize (Hall st' Hin). simpl in Hall. lia.
  - pose proof (steps_lookup_before_loop _ _ Hk). lia.
Qed.

(** On time, the reveals of an iteration leave the clock at or before the
    interval's deadline. *)
Lemma play_reveals base id ivid m :
  ∀ k s, k + m = length steps →
    shape s base k id ivid → (now (timers s) ≤ next_due base k)%N →
    shape (play m s) base (length steps) id ivid
    ∧ (now (timers (play m s)) ≤ base + loop_period)%N
    ∧ next_id (timers (play m s)) = next_id (timers s).
Proof.
  induction m as [|m IH]; intros k s Hkm Hs Hnow; simpl.
  - replace (length steps) with k by lia. split; [done|split; [|done]].
    unfold next_due in Hnow.
    rewrite (proj2 (lookup_ge_None steps k)) in Hnow by lia. done.
  - destruct (lookup_lt_is_Some_2 steps k) as [st Hk]; [lia|].
    destruct (tick_reveal _ _ _ _ _ _ 0 Hs Hk) as (s1 & Ht & Hs1 & _ & Hn1 & Hid1).
    rewrite Ht. destruct (next_due_step base _ _ Hk) as [Hd Hle].
    destruct (IH (S k) s1) as (Hs' & Hn' & Hid'); [lia|done|lia|].
    split; [done|split; [done|congruence]].
Qed.

(** On time, one iteration takes [loop_period]: its eleven turns lead from
    the start of one iteration to the start of the next. *)
Lemma play_iteration s base id ivid :
  shape s base 0 id ivid → now (timers s) = base →
  let s' := play (S (length steps)) s in
  shape s' (base + loop_period) 0 (next_id (timers s)) ivid
  ∧ now (timers s') = (base + loop_period)%N.
Proof.
  intros Hs Hnow. replace (S (length steps)) with (length steps + 1) by lia.
  rewrite play_add.
  destruct (play_reveals base id ivid (length steps) 0 s) as (Hs1 & Hn1 & Hid1);
    [lia|done|unfold next_due; lia|].
  destruct (tick_restart _ _ _ _ _ 0 Hs1 (le_n _)) as (s2 & Ht & Hs2 & _ & Hn2).
  simpl. rewrite Ht.
  replace (N.max (now (timers (play (length steps) s))) (base + loop_period) + 0)%N
    with (base + loop_period)%N in * by lia.
  by rewrite <- Hid1.
Qed.

Lemma mount_now t0 id0 : now (timers (mount (fresh t0 id0))) = t0.
Proof. unfold mount. rewrite runAnimation_eq. reflexivity. Qed.

Lemma play_iterations t0 id0 n :
  let s := play (n * S (length steps)) (mount (fresh t0 id0)) in
  now (timers s) = (t0 + N.of_nat n * loop_period)%N
  ∧ ∃ id, shape s (now (timers s)) 0 id (id0 + length steps).
Proof.
  induction n as [|n (Hnow & id & Hs)].
  - change (0 * S (length steps)) with 0. unfold play. cbv zeta.
    rewrite mount_now. split; [lia|]. exists id0. apply mount_shape.
  - replace (S n * S (length steps)) with (n * S (length steps) + S (length steps)) by lia.
    rewrite play_add.
    destruct (play_iteration _ _ _ _ Hs eq_refl) as [Hs' Hnow'].
    cbv zeta. rewrite Hnow'. split; [lia|]. eauto.
Qed.

End TerminalFacts.

(** ** Terminal: the animation's guarantees *)

Example terminal_play_3 :
  Terminal.lines (Terminal.play 3 (Terminal.mount (Terminal.fresh 0 1)))
  = take 3 Terminal.texts.
Proof. vm_compute. reflexivity. Qed.

Example terminal_play_11 :
  let s := Terminal.play 11 (Terminal.mount (Terminal.fresh 0 1)) in
  Terminal.lines s = [] ∧ Timers.now (Terminal.timers s) = 9000%N
  ∧ length (Timers.pending (Terminal.timers s)) = 11
  ∧ length (Terminal.timeouts s) = 20.
Proof. vm_compute. repeat split; reflexivity. Qed.

Example terminal_cleanup_13 :
  Timers.pending (Terminal.timers
    (Terminal.cleanup (Terminal.play 13 (Terminal.mount (Terminal.fresh 0 1))))) = [].
Proof. vm_compute. reflexivity. Qed.

(** C1.  The steps of the Terminal animation carry strictly increasing
    delays, from 500 ms to 7000 ms, and in every state the component can
    reach (mounted, after any number of timer callbacks however late, or
    torn down) the displayed lines are a prefix of the steps' texts in list
    order.  A timer callback
    either shows exactly one more line or empties the display, and the
    result is again such a prefix: no line appears before an earlier one. *)
Theorem terminal_lines_prefix (s : Terminal.state) :
  Terminal.reachable s →
  StronglySorted N.lt (map Terminal.delay Terminal.steps)
  ∧ Terminal.delay <$> head Terminal.steps = Some 500%N
  ∧ Terminal.delay <$> last Terminal.steps = Some 7000%N
  ∧ Terminal.lines s `prefix_of` Terminal.texts
  ∧ ∀ late s', Terminal.tick late s = Some s' →
      Terminal.lines s' `prefix_of` Terminal.texts
      ∧ (Terminal.lines s' = []
         ∨ ∃ x, Terminal.lines s' = Terminal.lines s ++ [x]).
Proof.
  assert (Hprefix : ∀ s0, Terminal.reachable s0 →
            Terminal.lines s0 `prefix_of` Terminal.texts).
  { intros s0 Hr. apply reachable_cases in Hr as [Hr|(s1 & Hr & ->)];
      destruct (running_shape _ Hr) as (base & k & id & ivid & Hs);
      destruct Hs as (Hln & _).
    - rewrite Hln. apply prefix_take.
    - unfold Terminal.cleanup. simpl. rewrite Hln. apply prefix_take. }
  intros Hr. split; [apply steps_sorted|]. do 2 (split; [reflexivity|]).
  split; [by apply Hprefix|].
  intros late s' Ht. split.
  - apply Hprefix. eapply Terminal.reachable_tick; eauto.
  - eapply tick_lines, Ht.
Qed.

Lemma terminal_lines_prefix_witness :
  let s := Terminal.play 2 (Terminal.mount (Terminal.fresh 0 1)) in
  Terminal.reachable s
  ∧ Terminal.lines s = ["> navigate to project..."; "> aicgen init"]
  ∧ Terminal.lines s `prefix_of` Terminal.texts.
Proof.
  assert (Hr : Terminal.reachable
                 (Terminal.play 2 (Terminal.mount (Terminal.fresh 0 1)))).
  { apply Terminal.reachable_running.
    apply (Terminal.running_tick
             (Terminal.play 1 (Terminal.mount (Terminal.fresh 0 1))) 0%N).
    - apply (Terminal.running_tick (Terminal.mount (Terminal.fresh 0 1)) 0%N).
      + apply Terminal.running_mount.
      + vm_compute. reflexivity.
    - vm_compute. reflexivity. }
  split; [exact Hr|]. split; [vm_compute; reflexivity|].
  exact (proj1 (proj2 (proj2 (proj2 (terminal_lines_prefix _ Hr))))).
Defined.

(** C2.  In every state of the mounted Terminal the pending timers are the
    not yet fired reveals of the current iteration, scheduled once each when
    the iteration started, and the loop interval, due 9000 ms after that
    start; the next timer callback always exists.  A run of [runAnimation]
    empties the lines and schedules one reveal per step, recording each
    identifier in the shared array.  With the event loop on time, iteration
    [n] starts exactly [9000 * n] ms after the mount, with no line shown and
    the full list scheduled.  The cleanup leaves no pending timer at all,
    whichever iteration scheduled it, so nothing fires after teardown. *)
Theorem terminal_teardown (s : Terminal.state) :
  Terminal.running s →
  (∃ base k id ivid,
      Terminal.lines s = take k Terminal.texts
      ∧ Timers.pending (Terminal.timers s)
        = drop k (TerminalSpec.reveals id base Terminal.steps)
          ++ [Timers.Timer ivid (base + 9000)%N (Some 9000%N) Terminal.RunAnimation])
  ∧ (∀ late, ∃ s', Terminal.tick late s = Some s')
  ∧ (let s1 := Terminal.runAnimation s in
     Terminal.lines s1 = []
     ∧ Timers.pending (Terminal.timers s1)
       = Timers.pending (Terminal.timers s)
         ++ TerminalSpec.reveals (Timers.next_id (Terminal.timers s))
                                 (Timers.now (Terminal.timers s)) Terminal.steps
     ∧ Terminal.timeouts s1
       = Terminal.timeouts s
         ++ seq (Timers.next_id (Terminal.timers s)) (length Terminal.steps))
  ∧ (∀ t0 id0 n,
       let sn := Terminal.play (n * 11) (Terminal.mount (Terminal.fresh t0 id0)) in
       Timers.now (Terminal.timers sn) = (t0 + N.of_nat n * 9000)%N
       ∧ Terminal.lines sn = []
       ∧ ∃ id ivid,
           Timers.pending (Terminal.timers sn)
           = TerminalSpec.reveals id (Timers.now (Terminal.timers sn)) Terminal.steps
             ++ [Timers.Timer ivid (Timers.now (Terminal.timers sn) + 9000)%N
                              (Some 9000%N) Terminal.RunAnimation])
  ∧ Timers.pending (Terminal.timers (Terminal.cleanup s)) = []
  ∧ ∀ late, Terminal.tick late (Terminal.cleanup s) = None.
Proof.
  intros Hr. destruct (running_shape _ Hr) as (base & k & id & ivid & Hs).
  split; [|split; [|split; [|split; [|split]]]].
  - destruct Hs as (Hln & _ & Hpend & _). exists base, k, id, ivid. by split.
  - intros late. destruct (Terminal.steps !! k) as [st|] eqn:Hk.
    + destruct (tick_reveal _ _ _ _ _ _ late Hs Hk) as (s' & Ht & _). eauto.
    + apply lookup_ge_None in Hk.
      destruct (tick_restart _ _ _ _ _ late Hs Hk) as (s' & Ht & _). eauto.
  - cbv zeta. by rewrite runAnimation_eq.
  - intros t0 id0 n.
    destruct (play_iterations t0 id0 n) as (Hnow & id' & Hs').
    change (S (length Terminal.steps)) with 11 in *.
    change Terminal.loop_period with 9000%N in *.
    cbv zeta. split; [done|].
    destruct Hs' as (Hln & _ & Hpend & _). split; [done|].
    exists id', (id0 + length Terminal.steps). by rewrite Hpend.
  - eapply cleanup_shape, Hs.
  - intros late. eapply cleanup_stuck, Hs.
Qed.

Lemma terminal_teardown_witness :
  let s := Terminal.play 13 (Terminal.mount (Terminal.fresh 0 1)) in
  Terminal.running s
  ∧ Timers.now (Terminal.timers s) = 10500%N
  ∧ length (Timers.pending (Terminal.timers s)) = 9
  ∧ Timers.pending (Terminal.timers (Terminal.cleanup s)) = [].
Proof.
  assert (Hr : Terminal.running
                 (Terminal.play 13 (Terminal.mount (Terminal.fresh 0 1)))).
  { apply play_running, Terminal.running_mount. }
  split; [exact Hr|]. split; [vm_compute; reflexivity|].
  split; [vm_compute; reflexivity|].
  exact (proj1 (proj2 (proj2 (proj2 (proj2 (terminal_teardown _ Hr)))))).
Defined.

(** ** Strings *)

Section StringFacts.

Import Dom PageSpec.

Lemma startsWith_spec p : ∀ s,
  startsWith s p = true ↔ ∃ b, s = String.append p b.
Proof.
  induction p as [|c p IH]; intros s; simpl.
  - split; [eauto|done].
  - destruct s as [|d s].
    + split; [discriminate|]. intros [b Hb]. discriminate.
    + rewrite andb_true_iff, IH, Ascii.eqb_eq. split.
      * intros [-> [b ->]]. eauto.
      * intros [b [= -> ->]]. eauto.
Qed.

Lemma includes_occurs p : ∀ s, includes s p = true ↔ occurs p s.
Proof.
  intros s. split.
  - induction s as [|c s IH]; simpl; rewrite orb_true_iff, startsWith_spec.
    + intros [[b Hb]|]; [|done]. exists EmptyString, b. done.
    + intros [[b Hb]|Hin].
      * exists EmptyString, b. done.
      * destruct (IH Hin) as (a & b & ->). exists (String c a), b. done.
  - intros (a & b & ->). induction a as [|c a IH]; simpl.
    + destruct (String.append p b) as [|d r] eqn:E; simpl;
        rewrite orb_true_iff; left; apply startsWith_spec; eauto.
    + rewrite orb_true_iff. by right.
Qed.

Lemma includes_not_occurs p s : includes s p = false ↔ ¬ occurs p s.
Proof. rewrite <- includes_occurs. by destruct (includes s p). Qed.

End StringFacts.

(** ** Static content *)

(** C3.  The Features array has exactly six elements, and the component
    renders one card per element: the grid's children are the cards of the
    six features, in order, and the section shows six headings, the six
    titles. *)
Theorem features_six_cards :
  length Features.features = 6
  ∧ Dom.children Features.grid = map Features.card Features.features
  ∧ length (Dom.children Features.grid) = 6
  ∧ Dom.elements "h3" Features.view
    = map (λ f, Dom.Elem "h3" [] [Dom.Text (Features.title f)]) Features.features.
Proof. repeat split. Qed.

Lemma platform_has_tab (p : Types.InstallPlatform) :
  p ∈ map Installation.id Installation.tabs.
Proof.
  destruct p; simpl;
    repeat (first [apply list_elem_of_here | apply list_elem_of_further]).
Qed.

(** C4.  The tabs array of the Installation component lists the platform
    identifiers npm, windows, mac, linux, in that order and once each, and
    every value of [InstallPlatform] is among them. *)
Theorem installation_tabs_cover :
  map Installation.id Installation.tabs
  = [Types.npm; Types.windows; Types.mac; Types.linux]
  ∧ NoDup (map Installation.id Installation.tabs)
  ∧ ∀ p : Types.InstallPlatform, p ∈ map Installation.id Installation.tabs.
Proof.
  split; [reflexivity|]. split.
  - simpl.
    repeat (apply NoDup_cons_2;
            [rewrite ?elem_of_cons, elem_of_nil; intuition discriminate|]).
    apply NoDup_nil_2.
  - apply platform_has_tab.
Qed.

(** ** Installation: platform detection *)

Example detect_windows :
  Installation.activeTab
    (Installation.detectPlatform Installation.asciiLowerCase
       "Mozilla/5.0 (Windows NT 10.0; Win64; x64) AppleWebKit/537.36"
       (Installation.initial (Timers.Pool 0 1 [])))
  = Types.windows.
Proof. reflexivity. Qed.

Example detect_mac :
  Installation.activeTab
    (Installation.detectPlatform Installation.asciiLowerCase
       "Mozilla/5.0 (Macintosh; Intel Mac OS X 10_15_7) AppleWebKit/605.1.15"
       (Installation.initial (Timers.Pool 0 1 [])))
  = Types.mac.
Proof. reflexivity. Qed.

Example detect_linux :
  Installation.activeTab
    (Installation.detectPlatform Installation.asciiLowerCase
       "Mozilla/5.0 (X11; Linux x86_64; rv:109.0) Gecko/20100101"
       (Installation.initial (Timers.Pool 0 1 [])))
  = Types.linux.
Proof. reflexivity. Qed.

Example detect_other :
  Installation.activeTab
    (Installation.detectPlatform Installation.asciiLowerCase
       "Mozilla/5.0 (Android 14; Mobile) Gecko/121.0"
       (Installation.setActiveTab Types.mac
          (Installation.initial (Timers.Pool 0 1 []))))
  = Types.npm.
Proof. reflexivity. Qed.

(** First match wins: an agent naming both Darwin and Macintosh holds
    "win" and lands on the Windows tab. *)
Example detect_first_match :
  Installation.activeTab
    (Installation.detectPlatform Installation.asciiLowerCase
       "Safari/605.1.15 (Macintosh) CFNetwork/1410 Darwin/22.6.0"
       (Installation.initial (Timers.Pool 0 1 [])))
  = Types.windows.
Proof. reflexivity. Qed.

(** C5.  Whatever the user agent, whatever the state before, and whatever
    lowercasing the engine applies, the mount-time detection sets the active
    tab to one of the four platforms by first match on the lowercased
    string: windows when it holds "win"; else mac when it holds "mac"; else
    linux when it holds "linux"; else npm.  It is a total function and
    touches nothing but the active tab. *)
Theorem detect_platform_first_match
    (toLowerCase : string → string) (userAgent : string)
    (s : Installation.state) :
  let ua := toLowerCase userAgent in
  let s' := Installation.detectPlatform toLowerCase userAgent s in
  Installation.activeTab s' ∈ map Installation.id Installation.tabs
  ∧ (PageSpec.occurs "win" ua → Installation.activeTab s' = Types.windows)
  ∧ (¬ PageSpec.occurs "win" ua → PageSpec.occurs "mac" ua →
     Installation.activeTab s' = Types.mac)
  ∧ (¬ PageSpec.occurs "win" ua → ¬ PageSpec.occurs "mac" ua →
     PageSpec.occurs "linux" ua → Installation.activeTab s' = Types.linux)
  ∧ (¬ PageSpec.occurs "win" ua → ¬ PageSpec.occurs "mac" ua →
     ¬ PageSpec.occurs "linux" ua → Installation.activeTab s' = Types.npm)
  ∧ Installation.copied s' = Installation.copied s
  ∧ Installation.clipboard s' = Installation.clipboard s
  ∧ Installation.timers s' = Installation.timers s.
Proof.
  cbv zeta. unfold Installation.detectPlatform.
  rewrite <- !includes_not_occurs, <- !includes_occurs.
  destruct (Dom.includes (toLowerCase userAgent) "win");
    [|destruct (Dom.includes (toLowerCase userAgent) "mac");
      [|destruct (Dom.includes (toLowerCase userAgent) "linux")]];
    cbn [Installation.setActiveTab Installation.activeTab Installation.copied
         Installation.clipboard Installation.timers];
    (split; [apply platform_has_tab|]);
    repeat split; congruence.
Qed.

(** ** Navbar *)

(** C7.  The Navbar renders one button, the menu button; a click on it maps
    [isOpen] to its negation, so two clicks, the component rendered again in
    between, restore the state they started from.  The mobile nav links are
    anchors of the open menu, a click on any of them closes the menu, and no
    anchor of the Navbar has a handler that does anything else. *)
Theorem navbar_menu_toggle (isOpen : bool) :
  Dom.elements "button" (Navbar.view isOpen) = [Navbar.menuButton isOpen]
  ∧ Navbar.click (Navbar.menuButton isOpen) isOpen = negb isOpen
  ∧ (let once := Navbar.click (Navbar.menuButton isOpen) isOpen in
     Navbar.click (Navbar.menuButton once) once = isOpen)
  ∧ (∀ l, l ∈ Navbar.navLinks →
       Navbar.mobileLink l ∈ Dom.elements "a" (Navbar.view true)
       ∧ Navbar.click (Navbar.mobileLink l) isOpen = false)
  ∧ (∀ n a, n ∈ Dom.elements "a" (Navbar.view isOpen) →
       Dom.onClick n = Some a → Navbar.update a isOpen = false).
Proof.
  split; [by destruct isOpen|]. split; [done|]. split; [by destruct isOpen|].
  split.
  - intros l Hl. split; [|done].
    unfold Navbar.navLinks in Hl.
    rewrite !elem_of_cons, elem_of_nil in Hl.
    destruct Hl as [->|[->|[->|[]]]]; vm_compute;
      repeat (first [apply list_elem_of_here | apply list_elem_of_further]).
  - intros n a Hn Ha. destruct isOpen; vm_compute in Hn;
      repeat (apply elem_of_cons in Hn as [->|Hn];
              [vm_compute in Ha; first [discriminate | by injection Ha as <-]|]);
      by apply elem_of_nil in Hn.
Qed.

(** ** Site data and the Features cards *)

(** C8.  The second card of the Features component is titled
    "75+ Guidelines" where the [guidelines] entry of [SITE_DATA.features] is
    titled "91 Guidelines"; the two lists of (title, description) pairs
    therefore differ.  At every other position they agree. *)
Theorem features_second_card_differs :
  map PageSpec.shown Features.features !! 1
  = Some ("75+ Guidelines",
          "Comprehensive coverage across 12 categories including Security, API Design, and Performance.")
  ∧ map PageSpec.configured SiteData.features !! 1
    = Some ("91 Guidelines",
            "Comprehensive coverage across 12 categories including Security, API Design, and Performance.")
  ∧ map PageSpec.shown Features.features
    ≠ map PageSpec.configured SiteData.features
  ∧ ∀ i, i ≠ 1 →
      map PageSpec.shown Features.features !! i
      = map PageSpec.configured SiteData.features !! i.
Proof.
  split; [reflexivity|]. split; [reflexivity|]. split; [discriminate|].
  intros i Hi. do 6 (destruct i as [|i]; [done || reflexivity|]). reflexivity.
Qed.

(** C9.  [SITE_DATA.stats.languages] is 9 while the languages array has 10
    elements; the categories and assistants counts do equal the lengths of
    their arrays. *)
Theorem site_data_language_count :
  SiteData.languages_count SiteData.stats = 9
  ∧ length SiteData.languages = 10
  ∧ SiteData.languages_count SiteData.stats ≠ length SiteData.languages
  ∧ SiteData.categories_count SiteData.stats = length SiteData.categories
  ∧ SiteData.assistants_count SiteData.stats = length SiteData.assistants.
Proof. repeat split. discriminate. Qed.

(** ** Installation: the copy buttons *)

Example copy_npx_marks_install_block :
  let s := Installation.initial (Timers.Pool 0 1 []) in
  let s' := Installation.click true Installation.npxButton s in
  Dom.elements "Check" (Installation.renderContent s) = []
  ∧ Dom.elements "button" (Installation.renderContent s')
    = [Installation.installButton true; Installation.npxButton]
  ∧ (Installation.copied <$> Installation.tick 0 s') = Some false.
Proof. vm_compute. repeat split; reflexivity. Qed.

(** Where [navigator.clipboard] is undefined a click on a copy button
    throws before anything is set: the flag stays unset and no reset is
    scheduled, for the npm install button as for the npx one. *)
Lemma installation_copy_without_clipboard :
  let s := Installation.initial (Timers.Pool 0 1 []) in
  let s1 := Installation.click false (Installation.installButton false) s in
  let s2 := Installation.click false Installation.npxButton s in
  Installation.dispatch false (Installation.installButton false) s = None
  ∧ Installation.dispatch false Installation.npxButton s = None
  ∧ Installation.copied s1 ≠ true
  ∧ Installation.copied s2 ≠ true
  ∧ Timers.pending (Installation.timers s1) = []
  ∧ Timers.pending (Installation.timers s2) = []
  ∧ Installation.clipboard s2 = None.
Proof. vm_compute. repeat split; discriminate. Qed.

(** C10.  The npm tab renders two copy buttons.  Where
    [navigator.clipboard] is defined, a click on either one hands its
    command to the clipboard, sets the one [copied] flag and schedules,
    2000 ms ahead, a callback that clears the flag (with no other timer
    pending, that callback is the next to run).  Only the first button's
    icon depends on the flag: it is the check mark exactly when the flag is
    set, while the second button always shows the copy icon.  So after the
    npx command is copied, the check mark appears on the npm install block.
    Where [navigator.clipboard] is undefined, the handler of either button
    throws and the click changes nothing. *)
Theorem installation_shared_copied_flag (s : Installation.state) :
  let s1 := Installation.click true
              (Installation.installButton (Installation.copied s)) s in
  let s2 := Installation.click true Installation.npxButton s in
  let reset :=
    Timers.Timer (Timers.next_id (Installation.timers s))
                 (Timers.now (Installation.timers s) + 2000)%N
                 None Installation.ResetCopied in
  Dom.elements "button"
    (Installation.renderContent (Installation.setActiveTab Types.npm s))
  = [Installation.installButton (Installation.copied s); Installation.npxButton]
  ∧ Installation.clipboard s1 = Some "npm install -g @aicgen/aicgen"
  ∧ Installation.clipboard s2 = Some "npx @aicgen/aicgen init"
  ∧ Installation.copied s1 = true
  ∧ Installation.copied s2 = true
  ∧ Timers.pending (Installation.timers s1)
    = Timers.pending (Installation.timers s) ++ [reset]
  ∧ Timers.pending (Installation.timers s2)
    = Timers.pending (Installation.timers s) ++ [reset]
  ∧ (∀ s', Installation.copied (Installation.run (Timers.handler reset) s') = false)
  ∧ (Timers.pending (Installation.timers s) = [] →
     ∀ late, ∃ s3,
       Installation.tick late s2 = Some s3
       ∧ Installation.copied s3 = false
       ∧ Timers.now (Installation.timers s3)
         = (Timers.now (Installation.timers s) + 2000 + late)%N
       ∧ Timers.pending (Installation.timers s3) = [])
  ∧ Dom.children (Installation.installButton true) = [Dom.Elem "Check" [] []]
  ∧ Dom.children (Installation.installButton false) = [Dom.Elem "Copy" [] []]
  ∧ Dom.children Installation.npxButton = [Dom.Elem "Copy" [] []]
  ∧ (Installation.activeTab s = Types.npm →
     Dom.elements "button" (Installation.renderContent s2)
     = [Installation.installButton true; Installation.npxButton])
  ∧ Installation.dispatch false
      (Installation.installButton (Installation.copied s)) s = None
  ∧ Installation.dispatch false Installation.npxButton s = None
  ∧ Installation.click false
      (Installation.installButton (Installation.copied s)) s = s
  ∧ Installation.click false Installation.npxButton s = s.
Proof.
  destruct s as [tab cp cb [nw nid pend]]. cbv zeta.
  split; [by destruct cp|]. split; [by destruct cp|]. split; [done|].
  split; [by destruct cp|]. split; [done|].
  split; [by destruct cp|]. split; [done|]. split; [done|].
  split; [|repeat split; simpl; first [by intros -> | by destruct cp]].
  simpl. intros -> late. eexists. unfold Installation.tick, Timers.fire. simpl.
  split; [reflexivity|]. simpl. repeat split.
  - f_equal. lia.
  - set (t := Timers.Timer nid (nw + 2000)%N None Installation.ResetCopied).
    change nid with (Timers.tid t). apply unlist_here.
Qed.

(** ** The page's hyperlinks *)

Section PageFacts.

Import Dom.

Lemma elements_app t (l1 l2 : list node) :
  concat (map (elements t) (l1 ++ l2))
  = concat (map (elements t) l1) ++ concat (map (elements t) l2).
Proof. by rewrite map_app, concat_app. Qed.

(** The rows of the terminal are plain text. *)
Lemma terminal_rows_no_anchor (g : nat → string) (l : list string) :
  concat (map (elements "a")
              (imap (λ idx line, Elem "div" [Attr "className" (g idx)] [Text line]) l))
  = [].
Proof.
  revert g. induction l as [|x l IH]; intros g; [done|].
  rewrite imap_cons. simpl. apply (IH (g ∘ S)).
Qed.

Lemma terminal_no_anchor (s : Terminal.state) :
  elements "a" (Terminal.view s) = [].
Proof.
  unfold Terminal.view.
  cbn [elements String.eqb Ascii.eqb Bool.eqb map concat app].
  rewrite elements_app, terminal_rows_no_anchor. reflexivity.
Qed.

Lemma hero_hyperlinks (s : Terminal.state) :
  hyperlinks (Hero.view s) = ["#installation"; PageSpec.repository].
Proof.
  unfold hyperlinks, Hero.view.
  cbn [elements String.eqb Ascii.eqb Bool.eqb map concat app].
  rewrite terminal_no_anchor. reflexivity.
Qed.

Lemma hyperlinks_children tag attrs kids :
  String.eqb tag "a" = false →
  hyperlinks (Elem tag attrs kids) = concat (map hyperlinks kids).
Proof.
  intros Htag. unfold hyperlinks. simpl. rewrite Htag. simpl.
  induction kids as [|k kids IH]; [done|].
  simpl. by rewrite omap_app, IH.
Qed.

Lemma navbar_hyperlinks (isOpen : bool) :
  hyperlinks (Navbar.view isOpen)
  = ["#features"; "#how-it-works"; "#installation"; PageSpec.repository]
    ++ (if isOpen
        then ["#features"; "#how-it-works"; "#installation"; PageSpec.repository]
        else []).
Proof. by destruct isOpen. Qed.

Lemma installation_hyperlinks (s : Installation.state) :
  hyperlinks (Installation.view s)
  = match Installation.activeTab s with
    | Types.npm => []
    | _ => [PageSpec.releases]
    end.
Proof. destruct s as [[] [] cb tm]; reflexivity. Qed.

Lemma footer_hyperlinks (year : string) :
  hyperlinks (Footer.view year) = [PageSpec.repository; PageSpec.registry].
Proof. reflexivity. Qed.

(** Every anchor of the page, in document order. *)
Lemma app_hyperlinks (pg : App.page) :
  hyperlinks (App.view pg)
  = hyperlinks (Navbar.view (App.navbar pg))
    ++ (["#installation"; PageSpec.repository]
        ++ hyperlinks (Installation.view (App.installation pg)))
    ++ [PageSpec.repository; PageSpec.registry].
Proof.
  unfold App.view. rewrite hyperlinks_children by reflexivity.
  cbn [map concat]. rewrite (hyperlinks_children "main") by reflexivity.
  cbn [map concat]. rewrite hero_hyperlinks, footer_hyperlinks.
  change (hyperlinks Features.view) with (@nil string).
  change (hyperlinks HowItWorks.view) with (@nil string).
  change (hyperlinks OutputPreview.view) with (@nil string).
  rewrite (hyperlinks_children "section") by reflexivity.
  cbn [map concat app]. by rewrite !app_nil_r.
Qed.

End PageFacts.

(** The namespace of the logo's drawing is an attribute of the [svg]
    element, not the target of an anchor. *)
Example logo_namespace_is_no_link :
  Dom.hyperlinks Logo.view = []
  ∧ match Logo.view with
    | Dom.Elem _ attrs _ => Dom.attribute "xmlns" attrs
    | Dom.Text _ => None
    end = Some "http://www.w3.org/2000/svg".
Proof. split; reflexivity. Qed.

(** The addresses are those of the site data configuration. *)
Example destinations_match_site_data :
  PageSpec.repository = SiteData.github_url
  ∧ PageSpec.registry = SiteData.npm_url
  ∧ Dom.startsWith PageSpec.releases PageSpec.repository = true.
Proof. repeat split. Qed.

(** C6.  Whatever the state of the page (menu open or closed, any terminal
    lines, any active installation tab, any year), every anchor whose target
    is an absolute http or https address points to the GitHub repository
    lpsandaruwan/aicgen, to its latest-release page, or to the npm page of
    @aicgen/aicgen. *)
Theorem page_external_links (pg : App.page) (url : string) :
  url ∈ Dom.hyperlinks (App.view pg) →
  Dom.absolute url = true →
  url = PageSpec.repository ∨ url = PageSpec.releases ∨ url = PageSpec.registry.
Proof.
  rewrite app_hyperlinks, navbar_hyperlinks, installation_hyperlinks.
  destruct (App.navbar pg), (Installation.activeTab (App.installation pg));
    cbn [app]; intros Hin Habs;
    repeat (apply elem_of_cons in Hin as [->|Hin];
            [first [discriminate Habs | by left | by right; left | by right; right]|]);
    by apply elem_of_nil in Hin.
Qed.

Lemma page_external_links_witness :
  let pg := App.Page true
              (Terminal.play 2 (Terminal.mount (Terminal.fresh 0 1)))
              (Installation.setActiveTab Types.linux
                 (Installation.initial (Timers.Pool 0 1 [])))
              "2026" in
  PageSpec.releases ∈ Dom.hyperlinks (App.view pg)
  ∧ Dom.absolute PageSpec.releases = true
  ∧ (PageSpec.releases = PageSpec.repository
     ∨ PageSpec.releases = PageSpec.releases
     ∨ PageSpec.releases = PageSpec.registry).
Proof.
  cbv zeta.
  assert (Hin : PageSpec.releases
                ∈ Dom.hyperlinks
                    (App.view
                       (App.Page true
                          (Terminal.play 2 (Terminal.mount (Terminal.fresh 0 1)))
                          (Installation.setActiveTab Types.linux
                             (Installation.initial (Timers.Pool 0 1 [])))
                          "2026"))).
  { vm_compute.
    repeat (first [apply list_elem_of_here | apply list_elem_of_further]). }
  split; [exact Hin|]. split; [reflexivity|].
  exact (page_external_links _ _ Hin eq_refl).
Defined.

(** * Further properties *)

(** ** Terminal: what is shown, what is kept *)

Section TerminalMore.

Import Timers Terminal TerminalSpec ViewSpec.

#[local] Opaque steps loop_period.

Lemma take_length_take {A} k (l : list A) : take (length (take k l)) l = take k l.
Proof.
  rewrite length_take. destruct (le_lt_dec k (length l)).
  - by rewrite Nat.min_l.
  - rewrite Nat.min_r by lia. rewrite !take_ge; [done|lia|lia].
Qed.

(** Rows built by index agree with rows built from the steps, as long as
    the colour looked up at an index is that of the step at that index. *)
Lemma imap_rows (l : list step) (c : nat → string) :
  (∀ i st, l !! i = Some st → c i = default "text-gray-300" (color st)) →
  imap (λ idx line,
          Dom.Elem "div" [Dom.Attr "className" (String.append (c idx) " mb-1")]
                   [Dom.Text line])
       (map text l)
  = map row l.
Proof.
  revert c. induction l as [|st l IH]; intros c Hc; [done|].
  simpl map. rewrite imap_cons. f_equal.
  - unfold row. by rewrite (Hc 0 st).
  - apply (IH (c ∘ S)). intros i st' Hi. apply (Hc (S i)), Hi.
Qed.

Lemma line_color_lookup k i st :
  take k steps !! i = Some st → line_color i = default "text-gray-300" (color st).
Proof.
  intros Hi. apply lookup_take_Some in Hi as [Hi _].
  unfold line_color. by rewrite Hi.
Qed.

Lemma reachable_lines s : reachable s → ∃ k, lines s = take k texts.
Proof.
  intros Hr. apply reachable_cases in Hr as [Hr|(s1 & Hr & ->)];
    destruct (running_shape _ Hr) as (base & k & id & ivid & Hln & _);
    exists k; [done|]. unfold cleanup. by simpl.
Qed.

Lemma fire_next_id {H} late (p p' : pool H) t :
  fire late p = Some (t, p') → next_id p' = next_id p ∧ pending p' = pending p.
Proof.
  unfold fire. destruct (earliest (pending p)); [|discriminate].
  by intros [= <- <-].
Qed.

Lemma settle_next_id {H} (t : timer H) p : next_id (settle t p) = next_id p.
Proof.
  unfold settle. destruct (period t); [|done].
  by destruct (bool_decide _).
Qed.

(** What one timer callback does to the lines, to the identifiers array and
    to the identifier counter. *)
Lemma tick_effect late s s' :
  tick late s = Some s' →
  (∃ x, lines s' = lines s ++ [x] ∧ timeouts s' = timeouts s
        ∧ next_id (timers s') = next_id (timers s))
  ∨ (lines s' = []
     ∧ timeouts s' = timeouts s ++ seq (next_id (timers s)) (length steps)
     ∧ next_id (timers s') = next_id (timers s) + length steps).
Proof.
  unfold tick. destruct (fire late (timers s)) as [[t p]|] eqn:Hf; [|discriminate].
  apply fire_next_id in Hf as [Hid _]. intros [= <-].
  destruct (handler t) as [line|]; simpl.
  - left. exists line. by rewrite settle_next_id.
  - right. rewrite settle_next_id, runAnimation_eq. simpl. by rewrite Hid.
Qed.

Lemma shape_pending_length s base k id ivid :
  shape s base k id ivid → length (pending (timers s)) = length steps - k + 1.
Proof.
  intros (_ & _ & Hpend & _). rewrite Hpend, length_app, length_drop.
  by rewrite <- (length_map tid (reveals id base steps)), reveals_tid, length_seq.
Qed.

Lemma play_reveals_ids base id ivid m :
  ∀ k s, k + m = length steps → shape s base k id ivid →
    shape (play m s) base (length steps) id ivid
    ∧ timeouts (play m s) = timeouts s
    ∧ next_id (timers (play m s)) = next_id (timers s).
Proof.
  induction m as [|m IH]; intros k s Hkm Hs; simpl.
  - by replace (length steps) with k by lia.
  - destruct (lookup_lt_is_Some_2 steps k) as [st Hk]; [lia|].
    destruct (tick_reveal _ _ _ _ _ _ 0 Hs Hk) as (s1 & Ht & Hs1 & Hln & _ & Hid1).
    rewrite Ht. destruct (IH (S k) s1) as (Hs' & Hto & Hid'); [lia|done|].
    split; [done|]. rewrite Hto, Hid'. split; [|done].
    destruct (tick_effect _ _ _ Ht) as [(x & _ & Heq & _)|(Hnil & _)]; [done|].
    rewrite Hnil in Hln. by destruct (lines s).
Qed.

Lemma play_iteration_ids s base id ivid :
  shape s base 0 id ivid →
  let s' := play (S (length steps)) s in
  (∃ base', shape s' base' 0 (next_id (timers s)) ivid)
  ∧ timeouts s' = timeouts s ++ seq (next_id (timers s)) (length steps).
Proof.
  intros Hs. replace (S (length steps)) with (length steps + 1) by lia.
  rewrite play_add.
  destruct (play_reveals_ids base id ivid (length steps) 0 s) as (Hs1 & Hto & Hid);
    [lia|done|].
  destruct (tick_restart _ _ _ _ _ 0 Hs1 (le_n _)) as (s2 & Ht & Hs2 & Hnil & _).
  simpl. rewrite Ht. rewrite Hid in Hs2. split; [eauto|].
  destruct (tick_effect _ _ _ Ht) as [(x & Hx & _)|(_ & Heq & _)].
  - rewrite Hnil in Hx. by destruct (lines (play (length steps) s)).
  - by rewrite Heq, Hto, Hid.
Qed.

Lemma play_iterations_ids t0 id0 n :
  let s := play (n * S (length steps)) (mount (fresh t0 id0)) in
  (∃ base id, shape s base 0 id (id0 + length steps))
  ∧ length (timeouts s) = length steps * (n + 1).
Proof.
  induction n as [|n ((base & id & Hs) & Hlen)].
  - change (0 * S (length steps)) with 0. unfold play. cbv zeta.
    split; [eauto using mount_shape|].
    unfold mount. rewrite runAnimation_eq. simpl. rewrite length_seq. lia.
  - replace (S n * S (length steps)) with (n * S (length steps) + S (length steps)) by lia.
    rewrite play_add.
    destruct (play_iteration_ids _ _ _ _ Hs) as [(base' & Hs') Hto].
    cbv zeta. split; [eauto|].
    rewrite Hto, length_app, length_seq, Hlen. lia.
Qed.

Lemma clear_all_clock {H} (ids : list nat) (p : pool H) :
  now (fold_left (λ q id, clearTimeout id q) ids p) = now p
  ∧ next_id (fold_left (λ q id, clearTimeout id q) ids p) = next_id p.
Proof.
  revert p. induction ids as [|id ids IH]; intros p; simpl; [done|].
  destruct (IH (clearTimeout id p)) as [-> ->]. done.
Qed.

Lemma cleanup_timers s base k id ivid :
  shape s base k id ivid →
  timers (cleanup s) = fresh (now (timers s)) (next_id (timers s)).
Proof.
  intros Hs. pose proof (cleanup_shape _ _ _ _ _ Hs) as Hpend.
  destruct Hs as (_ & Hlp & _).
  unfold cleanup in *. simpl in *. rewrite Hlp in *.
  destruct (clear_all_clock (timeouts s) (clearInterval ivid (timers s))) as [Hn Hi].
  destruct (fold_left _ (timeouts s) (clearInterval ivid (timers s))) as [nw nid pend].
  simpl in *. by subst.
Qed.

End TerminalMore.

Example terminal_rows_after_3 :
  ViewSpec.rows (Terminal.play 3 (Terminal.mount (Terminal.fresh 0 1)))
  = [ Dom.Elem "div" [Dom.Attr "className" "text-gray-300 mb-1"]
        [Dom.Text "> navigate to project..."];
      Dom.Elem "div" [Dom.Attr "className" "text-gray-300 mb-1"]
        [Dom.Text "> aicgen init"];
      Dom.Elem "div" [Dom.Attr "className" "text-blue-400 mb-1"]
        [Dom.Text "✔  Analyzing project structure..."];
      ViewSpec.cursor ].
Proof. vm_compute. reflexivity. Qed.

(** X1.  In every state the Terminal can reach, its body shows, for each
    displayed line in order, the text of the step at that position in that
    step's colour (grey where the step names none), then the cursor; so the
    colours never drift away from the lines, and there are at most eleven
    rows. *)
Theorem terminal_rows_follow_steps (s : Terminal.state) :
  Terminal.reachable s →
  ViewSpec.rows s
  = map ViewSpec.row (take (length (Terminal.lines s)) Terminal.steps)
    ++ [ViewSpec.cursor]
  ∧ length (ViewSpec.rows s) ≤ 11.
Proof.
  intros Hr. destruct (reachable_lines _ Hr) as [k Hk].
  assert (Hrows : ViewSpec.rows s
                  = map ViewSpec.row (take (length (Terminal.lines s)) Terminal.steps)
                    ++ [ViewSpec.cursor]).
  { unfold ViewSpec.rows, Terminal.view. cbn [Dom.children]. f_equal.
    rewrite Hk. unfold Terminal.texts.
    change (map Terminal.text Terminal.steps) with (Terminal.text <$> Terminal.steps).
    rewrite <- fmap_take, length_fmap, take_length_take.
    apply imap_rows. intros i st. apply line_color_lookup. }
  split; [done|].
  rewrite Hrows, length_app, length_map, length_take. simpl. lia.
Qed.

Lemma terminal_rows_follow_steps_witness :
  let s := Terminal.cleanup (Terminal.play 14 (Terminal.mount (Terminal.fresh 0 1))) in
  Terminal.reachable s
  ∧ length (Terminal.lines s) = 3
  ∧ ViewSpec.rows s
    = map ViewSpec.row (take 3 Terminal.steps) ++ [ViewSpec.cursor].
Proof.
  assert (Hr : Terminal.reachable
                 (Terminal.cleanup
                    (Terminal.play 14 (Terminal.mount (Terminal.fresh 0 1))))).
  { apply Terminal.reachable_cleanup, play_running, Terminal.running_mount. }
  split; [exact Hr|]. split; [vm_compute; reflexivity|].
  exact (proj1 (terminal_rows_follow_steps _ Hr)).
Defined.

(** X2.  The display is cleared only from the complete display: for a
    mounted Terminal, a timer callback leaves no line exactly when all ten
    lines were shown before it, however late the callbacks run.  No
    iteration is cut short. *)
Theorem terminal_reset_only_when_complete
    (s s' : Terminal.state) (late : N) :
  Terminal.running s → Terminal.tick late s = Some s' →
  (Terminal.lines s' = [] ↔ Terminal.lines s = Terminal.texts).
Proof.
  intros Hr Ht. destruct (running_shape _ Hr) as (base & k & id & ivid & Hs).
  pose proof Hs as (Hln & _).
  destruct (Terminal.steps !! k) as [st|] eqn:Hk.
  - destruct (tick_reveal _ _ _ _ _ _ late Hs Hk) as (s1 & Ht1 & _ & Hln1 & _).
    rewrite Ht in Ht1. injection Ht1 as <-. split.
    + intros Hnil. rewrite Hnil in Hln1. by destruct (Terminal.lines s).
    + intros Hall. apply lookup_lt_Some in Hk.
      apply (f_equal length) in Hln. rewrite Hall, length_take in Hln.
      unfold Terminal.texts in Hln. rewrite length_map in Hln. lia.
  - apply lookup_ge_None in Hk.
    destruct (tick_restart _ _ _ _ _ late Hs Hk) as (s1 & Ht1 & _ & Hnil & _).
    rewrite Ht in Ht1. injection Ht1 as <-. split; [|done].
    intros _. rewrite Hln. apply take_ge.
    unfold Terminal.texts. by rewrite length_map.
Qed.

Lemma terminal_reset_only_when_complete_witness :
  let s := Terminal.play 10 (Terminal.mount (Terminal.fresh 0 1)) in
  let s' := Terminal.play 11 (Terminal.mount (Terminal.fresh 0 1)) in
  Terminal.running s
  ∧ Terminal.tick 0 s = Some s'
  ∧ Terminal.lines s' = []
  ∧ Terminal.lines s = Terminal.texts.
Proof.
  cbv zeta.
  assert (Hr : Terminal.running
                 (Terminal.play 10 (Terminal.mount (Terminal.fresh 0 1)))).
  { apply play_running, Terminal.running_mount. }
  assert (Ht : Terminal.tick 0 (Terminal.play 10 (Terminal.mount (Terminal.fresh 0 1)))
               = Some (Terminal.play 11 (Terminal.mount (Terminal.fresh 0 1)))).
  { vm_compute. reflexivity. }
  split; [exact Hr|]. split; [exact Ht|]. split; [vm_compute; reflexivity|].
  exact (proj1 (terminal_reset_only_when_complete _ _ _ Hr Ht) eq_refl).
Defined.

(** X3.  Timers stay bounded, the identifiers array does not: a mounted
    Terminal never has more than eleven timers pending, but a timer callback
    never removes an identifier from the effect's array, and every restart
    appends ten more.  With the event loop on time the array holds
    [10 * (n + 1)] identifiers when iteration [n] starts. *)
Theorem terminal_timeouts_never_pruned :
  (∀ s, Terminal.running s → length (Timers.pending (Terminal.timers s)) ≤ 11)
  ∧ (∀ late s s', Terminal.tick late s = Some s' →
       Terminal.timeouts s `prefix_of` Terminal.timeouts s'
       ∧ (Terminal.lines s' = [] →
          length (Terminal.timeouts s') = length (Terminal.timeouts s) + 10))
  ∧ (∀ t0 id0 n,
       length (Terminal.timeouts
                 (Terminal.play (n * 11) (Terminal.mount (Terminal.fresh t0 id0))))
       = 10 * (n + 1)).
Proof.
  split; [|split].
  - intros s Hr. destruct (running_shape _ Hr) as (base & k & id & ivid & Hs).
    rewrite (shape_pending_length _ _ _ _ _ Hs).
    change (length Terminal.steps) with 10. lia.
  - intros late s s' Ht.
    destruct (tick_effect _ _ _ Ht) as [(x & Hx & -> & _)|(_ & -> & _)].
    + split; [done|]. intros Hnil. rewrite Hnil in Hx.
      by destruct (Terminal.lines s).
    + split; [by apply prefix_app_r|]. intros _.
      by rewrite length_app, length_seq.
  - intros t0 id0 n. destruct (play_iterations_ids t0 id0 n) as [_ Hlen].
    exact Hlen.
Qed.

(** X4.  Mounting again after the cleanup (as a development build does on
    purpose) starts from a clean slate: the pool the cleanup leaves is an
    empty one, so the second mount is an ordinary mount at the current time,
    with its own identifiers array, no line shown and its eleven timers the
    only ones pending. *)
Theorem terminal_remount (s : Terminal.state) :
  Terminal.running s →
  let s' := Terminal.mount (Terminal.timers (Terminal.cleanup s)) in
  s' = Terminal.mount
         (Terminal.fresh (Timers.now (Terminal.timers s))
                         (Timers.next_id (Terminal.timers s)))
  ∧ Terminal.running s'
  ∧ Terminal.lines s' = []
  ∧ Terminal.timeouts s' = seq (Timers.next_id (Terminal.timers s)) 10
  ∧ length (Timers.pending (Terminal.timers s')) = 11.
Proof.
  intros Hr. destruct (running_shape _ Hr) as (base & k & id & ivid & Hs).
  cbv zeta. rewrite (cleanup_timers _ _ _ _ _ Hs).
  split; [done|]. split; [apply Terminal.running_mount|].
  unfold Terminal.mount. rewrite runAnimation_eq. simpl.
  repeat split.
Qed.

Lemma terminal_remount_witness :
  let s := Terminal.play 13 (Terminal.mount (Terminal.fresh 0 1)) in
  let s' := Terminal.mount (Terminal.timers (Terminal.cleanup s)) in
  Terminal.running s
  ∧ Timers.now (Terminal.timers s') = 10500%N
  ∧ Terminal.running s'.
Proof.
  cbv zeta.
  assert (Hr : Terminal.running
                 (Terminal.play 13 (Terminal.mount (Terminal.fresh 0 1)))).
  { apply play_running, Terminal.running_mount. }
  split; [exact Hr|]. split; [vm_compute; reflexivity|].
  exact (proj1 (proj2 (terminal_remount _ Hr))).
Defined.

(** ** Installation: copies, resets and tabs *)

Section InstallationMore.

Import Types Dom Timers Installation InstallationSpec.

Lemma earliest_cons_is_Some {H} (t : timer H) l : ∃ u, earliest (t :: l) = Some u.
Proof.
  simpl. destruct (earliest l) as [u|]; [|eauto].
  destruct (due u <? due t)%N; eauto.
Qed.

(** The handlers of the buttons the component renders. *)
Lemma installation_button_handlers s n :
  n ∈ elements "button" (view s) →
  (∃ p, onClick n = Some (SetActiveTab p))
  ∨ onClick n = Some (HandleCopy "npm install -g @aicgen/aicgen")
  ∨ onClick n = Some (HandleCopy "npx @aicgen/aicgen init").
Proof.
  destruct s as [[] [] cb tm]; intros Hn; vm_compute in Hn;
    repeat (apply elem_of_cons in Hn as [->|Hn];
            [first [ by left; eexists | by right; left | by right; right ]|]);
    by apply elem_of_nil in Hn.
Qed.

Lemma detect_keeps_rest toLowerCase userAgent s :
  copied (detectPlatform toLowerCase userAgent s) = copied s
  ∧ clipboard (detectPlatform toLowerCase userAgent s) = clipboard s
  ∧ timers (detectPlatform toLowerCase userAgent s) = timers s.
Proof.
  unfold detectPlatform.
  destruct (includes _ "win"); [done|].
  destruct (includes _ "mac"); [done|].
  by destruct (includes _ "linux").
Qed.

Lemma handleCopy_settled api text s :
  text = "npm install -g @aicgen/aicgen" ∨ text = "npx @aicgen/aicgen init" →
  settled s → settled (default s (handleCopy api text s)).
Proof.
  intros Htext Hs. destruct api; [|exact Hs].
  destruct Hs as (_ & Hall & _ & _). unfold settled, handleCopy. simpl.
  split; [intros _; by destruct (pending (timers s))|].
  split; [|split; [done|]].
  - apply Forall_app. split; [done|]. repeat constructor. simpl. lia.
  - destruct Htext as [->| ->]; auto.
Qed.

Lemma tick_settled late s s' :
  settled s → tick late s = Some s' →
  settled s' ∧ copied s' = false
  ∧ (now (timers s') ≤ now (timers s) + 2000 + late)%N.
Proof.
  intros (_ & Hall & _ & Hcb). unfold tick, fire.
  destruct (earliest (pending (timers s))) as [t|] eqn:He; [|discriminate].
  intros [= <-]. apply earliest_elem_of in He.
  rewrite Forall_forall in Hall. destruct (Hall t He) as [Hp Hd].
  destruct (handler t). unfold settle. simpl. rewrite Hp. simpl.
  split; [|split; [done|lia]].
  split; [done|]. split; [|split; [done|exact Hcb]].
  apply Forall_forall. intros u Hu.
  apply list_elem_of_filter in Hu as [_ Hu].
  destruct (Hall u Hu). split; [done|simpl; lia].
Qed.

Lemma reachable_settled s : reachable s → settled s.
Proof.
  induction 1 as [t0 id0|lc ua s _ IH|api n s _ IH Hn|late s s' _ IH Ht].
  - unfold settled. simpl. repeat split; try done. by left.
  - destruct (detect_keeps_rest lc ua s) as (Hc & Hb & Ht).
    unfold settled. by rewrite Hc, Hb, Ht.
  - unfold click, dispatch.
    destruct (installation_button_handlers _ _ Hn) as [[p ->]|[-> | ->]]; simpl.
    + exact IH.
    + apply handleCopy_settled; auto.
    + apply handleCopy_settled; auto.
  - by destruct (tick_settled _ _ _ IH Ht).
Qed.

End InstallationMore.

(** X5.  The copied indicator never sticks: in every state the Installation
    component can reach, through the mount effect, clicks on its buttons and
    timer callbacks however late, a set [copied] flag has a reset pending,
    every pending timer is a one-shot due within 2000 ms, and the next timer
    callback clears the flag, on time no later than 2000 ms from now.  The
    clipboard holds nothing or one of the two commands, and a command
    whenever the flag is set. *)
Theorem installation_indicator_clears (s : Installation.state) :
  InstallationSpec.reachable s →
  InstallationSpec.settled s
  ∧ (∀ late s', Installation.tick late s = Some s' →
       Installation.copied s' = false)
  ∧ (Installation.copied s = true →
     ∃ s', Installation.tick 0 s = Some s'
           ∧ Installation.copied s' = false
           ∧ (Timers.now (Installation.timers s')
              ≤ Timers.now (Installation.timers s) + 2000)%N).
Proof.
  intros Hr. pose proof (reachable_settled _ Hr) as Hs.
  split; [done|]. split.
  - intros late s' Ht. by destruct (tick_settled _ _ _ Hs Ht) as (_ & ? & _).
  - intros Hc. destruct Hs as (Hpend & Hrest). specialize (Hpend Hc).
    destruct (Installation.tick 0 s) as [s'|] eqn:Ht.
    + destruct (tick_settled 0 s s') as (_ & Hf & Hn); [by split|done|].
      exists s'. split; [done|]. split; [done|lia].
    + exfalso. unfold Installation.tick, Timers.fire in Ht.
      destruct (Timers.pending (Installation.timers s)) as [|t l]; [done|].
      destruct (earliest_cons_is_Some t l) as [u Hu]. by rewrite Hu in Ht.
Qed.

Lemma installation_indicator_clears_witness :
  let s := Installation.click true Installation.npxButton
             (Installation.click true (Installation.installButton false)
                (Installation.initial (Timers.Pool 0 1 []))) in
  InstallationSpec.reachable s
  ∧ Installation.copied s = true
  ∧ length (Timers.pending (Installation.timers s)) = 2
  ∧ InstallationSpec.settled s.
Proof.
  cbv zeta.
  assert (Hr : InstallationSpec.reachable
                 (Installation.click true Installation.npxButton
                    (Installation.click true (Installation.installButton false)
                       (Installation.initial (Timers.Pool 0 1 []))))).
  { apply InstallationSpec.reachable_click.
    - apply InstallationSpec.reachable_click.
      + apply InstallationSpec.reachable_initial.
      + vm_compute.
        repeat (first [apply list_elem_of_here | apply list_elem_of_further]).
    - vm_compute.
      repeat (first [apply list_elem_of_here | apply list_elem_of_further]). }
  split; [exact Hr|]. split; [reflexivity|]. split; [reflexivity|].
  exact (proj1 (installation_indicator_clears _ Hr)).
Defined.

Lemma same_platform_eq (a b : Types.InstallPlatform) :
  Types.same_platform a b = true ↔ a = b.
Proof. destruct a, b; simpl; split; congruence. Qed.

(** X6.  Tabs: from any state, with or without a clipboard, every platform
    has a tab button; the one tab button styled as active is the one whose
    platform is shown; a click on a tab button shows its platform and
    touches nothing else.  Without their
    styling the buttons of the bar are the first four buttons of the
    section. *)
Theorem installation_tab_buttons
    (clipboardApi : bool) (s : Installation.state) (p : Types.InstallPlatform) :
  (∃ n, n ∈ Dom.children (InstallationTabs.tabBar s)
        ∧ Dom.onClick n = Some (Dom.SetActiveTab p))
  ∧ (∀ n q, n ∈ Dom.children (InstallationTabs.tabBar s) →
       Dom.onClick n = Some (Dom.SetActiveTab q) →
       (ViewSpec.className n = Some ViewSpec.active_class
        ↔ q = Installation.activeTab s)
       ∧ Installation.click clipboardApi n s = Installation.setActiveTab q s
       ∧ Installation.activeTab (Installation.click clipboardApi n s) = q)
  ∧ map InstallationTabs.unstyled (Dom.children (InstallationTabs.tabBar s))
    = take 4 (Dom.elements "button" (Installation.view s)).
Proof.
  split; [|split].
  - pose proof (platform_has_tab p) as Hp.
    apply list_elem_of_fmap in Hp as (t & -> & Ht).
    exists (InstallationTabs.tabButton s t). split; [|done].
    unfold InstallationTabs.tabBar. cbn [Dom.children].
    by apply (list_elem_of_fmap_2 (InstallationTabs.tabButton s)).
  - intros n q Hn Ha. unfold Installation.click, Installation.dispatch.
    rewrite Ha. simpl.
    split; [|done].
    unfold InstallationTabs.tabBar in Hn. cbn [Dom.children] in Hn.
    apply (list_elem_of_fmap (InstallationTabs.tabButton s)) in Hn as (t & -> & _).
    simpl in Ha. injection Ha as <-. simpl.
    destruct (Types.same_platform (Installation.activeTab s) (Installation.id t))
      eqn:Hsame.
    + apply same_platform_eq in Hsame. by split.
    + split; [discriminate|]. intros Heq.
      symmetry in Heq. apply same_platform_eq in Heq. congruence.
  - by destruct s as [[] [] cb tm].
Qed.

(** X7.  Each copy button copies what its block shows: on the npm tab there
    are two command blocks, each with one command and one button.  Where
    [navigator.clipboard] is defined, a click on the button hands exactly
    that command to the clipboard and sets the flag; where it is undefined
    the button's handler throws and the click changes nothing.  The other
    tabs render no button, so their commands cannot be copied. *)
Theorem copy_buttons_copy_shown_command (s : Installation.state) :
  Forall (λ block,
            ∃ cmd b,
              Dom.elements "code" block = [Dom.Elem "code" [] [Dom.Text cmd]]
              ∧ Dom.elements "button" block = [b]
              ∧ Installation.clipboard (Installation.click true b s) = Some cmd
              ∧ Installation.copied (Installation.click true b s) = true
              ∧ Installation.dispatch false b s = None
              ∧ Installation.click false b s = s)
         (Dom.children
            (Installation.renderContent
               (Installation.setActiveTab Types.npm s)))
  ∧ length (Dom.children
              (Installation.renderContent
                 (Installation.setActiveTab Types.npm s))) = 2
  ∧ (Installation.activeTab s ≠ Types.npm →
     Dom.elements "button" (Installation.renderContent s) = []).
Proof.
  split; [|split; [done|]].
  - destruct s as [tab [] cb tm]; repeat constructor;
      eexists _, _; (split; [reflexivity|]); (split; [reflexivity|]); done.
  - by destruct s as [[] cp cb tm].
Qed.

(** ** Installation: words that hold "win" *)

Section DetectMore.

Import PageSpec.

Lemma append_assoc (a b c : string) :
  String.append (String.append a b) c = String.append a (String.append b c).
Proof. induction a as [|x a IH]; simpl; [done|]. by rewrite IH. Qed.

Lemma occurs_trans (p w s : string) : occurs p w → occurs w s → occurs p s.
Proof.
  intros (a & b & ->) (c & d & ->).
  exists (String.append c a), (String.append b d).
  by rewrite !append_assoc.
Qed.

End DetectMore.

(** X8.  The first test shadows the others for any word that holds "win":
    a user agent whose lowercased form contains such a word (Darwin, for
    one) is sent to the Windows tab, whatever else it names. *)
Theorem detect_word_holding_win
    (toLowerCase : string → string) (userAgent word : string)
    (s : Installation.state) :
  PageSpec.occurs "win" word →
  PageSpec.occurs word (toLowerCase userAgent) →
  Installation.activeTab (Installation.detectPlatform toLowerCase userAgent s)
  = Types.windows.
Proof.
  intros Hw Hua. pose proof (occurs_trans _ _ _ Hw Hua) as Hwin.
  apply includes_occurs in Hwin.
  unfold Installation.detectPlatform. by rewrite Hwin.
Qed.

Lemma detect_word_holding_win_witness :
  PageSpec.occurs "win" "darwin"
  ∧ PageSpec.occurs "darwin"
      (Installation.asciiLowerCase
         "Mozilla/5.0 (Macintosh; Intel Mac OS X) CFNetwork/1410 Darwin/22.6.0")
  ∧ Installation.activeTab
      (Installation.detectPlatform Installation.asciiLowerCase
         "Mozilla/5.0 (Macintosh; Intel Mac OS X) CFNetwork/1410 Darwin/22.6.0"
         (Installation.initial (Timers.Pool 0 1 [])))
    = Types.windows.
Proof.
  assert (Hw : PageSpec.occurs "win" "darwin").
  { exists "dar", "". reflexivity. }
  assert (Hua : PageSpec.occurs "darwin"
                  (Installation.asciiLowerCase
                     "Mozilla/5.0 (Macintosh; Intel Mac OS X) CFNetwork/1410 Darwin/22.6.0")).
  { exists "mozilla/5.0 (macintosh; intel mac os x) cfnetwork/1410 ", "/22.6.0".
    reflexivity. }
  split; [exact Hw|]. split; [exact Hua|].
  exact (detect_word_holding_win _ _ _ _ Hw Hua).
Defined.

(** ** Navbar: the menu over many clicks *)

(** X9.  After [n] clicks on the menu button, the component rendered again
    after each, the menu is open exactly when it started open and [n] is
    even, or started closed and [n] is odd. *)
Theorem navbar_clicks_parity (n : nat) (isOpen : bool) :
  NavbarSpec.clicks n isOpen = xorb isOpen (Nat.odd n).
Proof.
  revert isOpen. induction n as [|n IH]; intros isOpen.
  - by destruct isOpen.
  - simpl NavbarSpec.clicks. rewrite IH, Nat.odd_succ, <- Nat.negb_odd.
    change (Navbar.click (Navbar.menuButton isOpen) isOpen) with (negb isOpen).
    by destruct isOpen, (Nat.odd n).
Qed.

(** X10.  The mobile links are on the page exactly while the menu is open:
    the anchors that carry a click handler are the mobile links, in the
    order of the link list, when it is open and none when it is closed; the
    button shows the close icon when open and the menu icon when closed;
    and after a click on a mobile link the page is the closed one. *)
Theorem navbar_mobile_menu_visibility (isOpen : bool) :
  filter (λ n, is_Some (Dom.onClick n)) (Dom.elements "a" (Navbar.view isOpen))
  = (if isOpen then map Navbar.mobileLink Navbar.navLinks else [])
  ∧ Dom.elements (if isOpen then "X" else "Menu") (Navbar.view isOpen)
    = [Dom.Elem (if isOpen then "X" else "Menu") [] []]
  ∧ Dom.elements (if isOpen then "Menu" else "X") (Navbar.view isOpen) = []
  ∧ ∀ l, Navbar.view (Navbar.click (Navbar.mobileLink l) isOpen)
         = Navbar.view false.
Proof. destruct isOpen; repeat split. Qed.

(** ** The page's in-page links *)

Section FragmentFacts.

Import Dom ViewSpec.

Lemma ids_children tag attrs kids :
  attribute "id" attrs = None →
  ids (Elem tag attrs kids) = concat (map ids kids).
Proof. intros Hid. simpl. by rewrite Hid. Qed.

Lemma ids_app (l1 l2 : list node) :
  concat (map ids (l1 ++ l2)) = concat (map ids l1) ++ concat (map ids l2).
Proof. by rewrite map_app, concat_app. Qed.

Lemma terminal_rows_no_id (g : nat → string) (l : list string) :
  concat (map ids
              (imap (λ idx line, Elem "div" [Attr "className" (g idx)] [Text line]) l))
  = [].
Proof.
  revert g. induction l as [|x l IH]; intros g; [done|].
  rewrite imap_cons. simpl. apply (IH (g ∘ S)).
Qed.

Lemma terminal_no_id (s : Terminal.state) : ids (Terminal.view s) = [].
Proof.
  unfold Terminal.view.
  cbn [ids attribute map concat app].
  rewrite ids_app, terminal_rows_no_id. reflexivity.
Qed.

Lemma hero_no_id (s : Terminal.state) : ids (Hero.view s) = [].
Proof.
  unfold Hero.view. cbn [ids attribute map concat app].
  rewrite terminal_no_id. reflexivity.
Qed.

Lemma logo_ids : ids Logo.view = ["lineGradient1"; "lineGradient2"; "lineGradient3"].
Proof. reflexivity. Qed.

(** Every [id] of the page, in document order: the logo's gradients are
    there twice, with the navigation bar and with the footer. *)
Lemma app_ids (pg : App.page) :
  ids (App.view pg)
  = ["lineGradient1"; "lineGradient2"; "lineGradient3";
     "features"; "how-it-works"; "installation";
     "lineGradient1"; "lineGradient2"; "lineGradient3"].
Proof.
  unfold App.view. rewrite ids_children by reflexivity.
  cbn [map concat]. rewrite (ids_children "main") by reflexivity.
  cbn [map concat]. rewrite hero_no_id.
  destruct pg as [[] term [[] [] cb tm] yr]; reflexivity.
Qed.

End FragmentFacts.

(** X11.  No in-page link is dead: whatever the state of the page, every
    anchor target that is not an absolute address is ["#"] followed by a
    name, and exactly one element of the page has that name as its [id]. *)
Theorem page_fragments_resolve (pg : App.page) (url : string) :
  url ∈ Dom.hyperlinks (App.view pg) →
  Dom.absolute url = false →
  ∃ name before after,
    ViewSpec.fragment url = Some name
    ∧ ViewSpec.ids (App.view pg) = before ++ (name :: after)
    ∧ (name ∉ before) ∧ (name ∉ after).
Proof.
  rewrite app_hyperlinks, navbar_hyperlinks, installation_hyperlinks, app_ids.
  assert (Hfree : ∀ (x : string) (l : list string),
            forallb (λ y, negb (String.eqb x y)) l = true → x ∉ l).
  { intros x l Hl Hin. apply list_elem_of_In in Hin.
    rewrite forallb_forall in Hl. specialize (Hl x Hin).
    by rewrite String.eqb_refl in Hl. }
  destruct (App.navbar pg), (Installation.activeTab (App.installation pg));
    cbn [app]; intros Hin Habs;
    repeat (apply elem_of_cons in Hin as [->|Hin];
            [first
               [ discriminate Habs
               | exists "features", ["lineGradient1"; "lineGradient2"; "lineGradient3"],
                   ["how-it-works"; "installation";
                    "lineGradient1"; "lineGradient2"; "lineGradient3"];
                 by repeat split; try apply Hfree
               | exists "how-it-works",
                   ["lineGradient1"; "lineGradient2"; "lineGradient3"; "features"],
                   ["installation"; "lineGradient1"; "lineGradient2"; "lineGradient3"];
                 by repeat split; try apply Hfree
               | exists "installation",
                   ["lineGradient1"; "lineGradient2"; "lineGradient3";
                    "features"; "how-it-works"],
                   ["lineGradient1"; "lineGradient2"; "lineGradient3"];
                 by repeat split; try apply Hfree ]|]);
    by apply elem_of_nil in Hin.
Qed.

Lemma page_fragments_resolve_witness :
  let pg := App.Page true
              (Terminal.play 2 (Terminal.mount (Terminal.fresh 0 1)))
              (Installation.initial (Timers.Pool 0 1 []))
              "2026" in
  "#how-it-works" ∈ Dom.hyperlinks (App.view pg)
  ∧ Dom.absolute "#how-it-works" = false
  ∧ ∃ name before after,
      ViewSpec.fragment "#how-it-works" = Some name
      ∧ ViewSpec.ids (App.view pg) = before ++ (name :: after)
      ∧ (name ∉ before) ∧ (name ∉ after).
Proof.
  cbv zeta.
  assert (Hin : "#how-it-works"
                ∈ Dom.hyperlinks
                    (App.view
                       (App.Page true
                          (Terminal.play 2 (Terminal.mount (Terminal.fresh 0 1)))
                          (Installation.initial (Timers.Pool 0 1 []))
                          "2026"))).
  { vm_compute.
    repeat (first [apply list_elem_of_here | apply list_elem_of_further]). }
  split; [exact Hin|]. split; [reflexivity|].
  exact (page_fragments_resolve _ _ Hin eq_refl).
Defined.

(** ** Terminal: the pace of the loop *)

Section PaceFacts.

Import Timers Terminal TerminalSpec TerminalTrace.

#[local] Opaque steps loop_period.

Lemma mount_paced t0 id0 : paced t0 (mount (fresh t0 id0)).
Proof.
  exists t0, 0, id0, (id0 + length steps), 1.
  split; [apply mount_shape|]. rewrite mount_now.
  unfold mount. rewrite runAnimation_eq. simpl. rewrite length_seq.
  repeat split; lia.
Qed.

Lemma tick_paced t0 late s s' :
  paced t0 s → tick late s = Some s' → paced t0 s'.
Proof.
  intros (base & k & id & ivid & m & Hs & Hlen & Hm & Hlow & Hnow) Ht.
  destruct (steps !! k) as [st|] eqn:Hk.
  - destruct (tick_reveal _ _ _ _ _ _ late Hs Hk) as (s1 & Ht1 & Hs1 & Hln & Hn1 & _).
    rewrite Ht in Ht1. injection Ht1 as <-.
    exists base, (S k), id, ivid, m. split; [done|].
    split; [|split; [done|split; [done|lia]]].
    destruct (tick_effect _ _ _ Ht) as [(x & _ & -> & _)|(Hnil & _)]; [done|].
    rewrite Hnil in Hln. by destruct (lines s).
  - apply lookup_ge_None in Hk.
    destruct (tick_restart _ _ _ _ _ late Hs Hk) as (s1 & Ht1 & Hs1 & Hnil & Hn1).
    rewrite Ht in Ht1. injection Ht1 as <-.
    eexists _, 0, _, ivid, (S m). split; [exact Hs1|].
    split; [|split; [lia|split; [|lia]]].
    + destruct (tick_effect _ _ _ Ht) as [(x & Hx & _)|(_ & -> & _)].
      * rewrite Hnil in Hx. by destruct (lines s).
      * rewrite length_app, length_seq, Hlen. lia.
    + replace (S m - 1) with (S (m - 1)) by lia. lia.
Qed.

Lemma play_late_paced t0 lates : ∀ s, paced t0 s → paced t0 (play_late lates s).
Proof.
  induction lates as [|late rest IH]; intros s Hs; simpl; [done|].
  destruct (tick late s) as [s'|] eqn:Ht; [|done].
  eauto using tick_paced.
Qed.

End PaceFacts.

(** X12.  The loop never runs fast: however late each timer callback is,
    when the identifiers array holds [10 * m] entries, that is in the
    [m]-th iteration since the mount, at least [9000 * (m - 1)] ms have
    passed since the mount.  Lateness only ever delays an iteration. *)
Theorem terminal_loop_never_fast (t0 : N) (id0 : nat) (lates : list N) :
  let s := TerminalTrace.play_late lates (Terminal.mount (Terminal.fresh t0 id0)) in
  ∃ m, length (Terminal.timeouts s) = 10 * m
       ∧ 1 ≤ m
       ∧ (t0 + N.of_nat (m - 1) * 9000 ≤ Timers.now (Terminal.timers s))%N.
Proof.
  destruct (play_late_paced t0 lates _ (mount_paced t0 id0))
    as (base & k & id & ivid & m & _ & Hlen & Hm & Hlow & Hnow).
  exists m. split; [exact Hlen|]. split; [exact Hm|].
  change Terminal.loop_period with 9000%N in Hlow. lia.
Qed.

Example terminal_late_loop :
  let s := TerminalTrace.play_late
             [0; 0; 0; 0; 0; 0; 0; 0; 0; 0; 2500; 0]%N
             (Terminal.mount (Terminal.fresh 0 1)) in
  length (Terminal.timeouts s) = 20
  ∧ Timers.now (Terminal.timers s) = 12000%N
  ∧ Terminal.lines s = ["> navigate to project..."].
Proof. vm_compute. repeat split; reflexivity. Qed.
